(** * InfiniteYou-FLUX Gradio demo ([app.py]): pipeline cache, seed handling
      and result file naming.

    The development embeds [prepare_pipeline] and [generate_image] of
    [app.py] as state-passing functions over an explicit world: the module
    level dictionary [loaded_pipeline_config], the flag [models_downloaded],
    the live pipeline objects, the results directory and a log of the
    externally visible operations. *)

From stdpp Require Import base option list strings gmap fin_maps pretty.
From Stdlib Require Import ZArith QArith Lia.

Local Open Scope string_scope.
Local Open Scope Z_scope.
Local Open Scope list_scope.

(** ** Python values and text *)

(** A Python [str] is a sequence of Unicode code points.  Text that only
    ever flows through ASCII literals and the model-version dropdown is kept
    as [string]; the user's prompt and everything built from it is a list of
    code points. *)
Abbreviation pystr := (list N).

(** An ASCII literal as a Python string. *)
Fixpoint lit (s : string) : pystr :=
  match s with
  | EmptyString => []
  | String a s' => Ascii.N_of_ascii a :: lit s'
  end.

(** Object identity of a pipeline instance. *)
Abbreviation Handle := nat.

(** The values stored in [loaded_pipeline_config]. *)
Inductive PyVal :=
| VNone
| VBool (b : bool)
| VStr (s : string)
| VPipe (h : Handle).

Global Instance PyVal_eq_dec : EqDecision PyVal.
Proof. solve_decision. Defined.

(** Python's [==] on the values above. *)
Definition py_eq (a b : PyVal) : bool := bool_decide (a = b).

(** [x is None] *)
Definition is_None (v : PyVal) : bool :=
  match v with VNone => true | _ => false end.

(** Opaque images (PIL objects), identified by a token. *)
Inductive Image := MkImage (token : N).

(** ** External objects *)

(** Modelled from the spec: the class [InfUFluxPipeline]
    ([pipelines/pipeline_infu_flux.py]) is not part of the embedded file.  A
    resident pipeline is "tagged with the variant and quantized/cpuOffload it
    was built with, plus the live AdapterSet currently attached"; attaching
    and detaching add-ons mutates the instance in place. *)
Record Pipeline := mkPipeline {
  model_version_of : string;
  quantize_8bit_of : bool;
  cpu_offload_of : bool;
  adapters : list string;
}.

(** One entry of the [loras] list: [[path, name, weight]]. *)
Record Lora := mkLora {
  lora_path : string;
  lora_name : string;
  lora_weight : Q;
}.

(** Keyword arguments of [pipeline(...)] as [generate_image] passes them. *)
Record CallArgs := mkCallArgs {
  id_image : option Image;
  prompt_arg : pystr;
  control_image_arg : option Image;
  seed_arg : Z;
  width_arg : Z;
  height_arg : Z;
  guidance_scale_arg : Q;
  num_steps_arg : Z;
  infusenet_conditioning_scale_arg : Q;
  infusenet_guidance_start_arg : Q;
  infusenet_guidance_end_arg : Q;
  cpu_offload_arg : bool;
}.

(** ** Exceptions and the observable log *)

Inductive Exn :=
| KeyError (key : string)
| AttributeError (attr : string)
| Exception (msg : string)          (* [raise Exception(msg)] in app.py *)
| ExternalError (msg : string).     (* raised inside a library call *)

Inductive result (A : Type) :=
| Ok (a : A)
| Raise (e : Exn).
Arguments Ok {A} a.
Arguments Raise {A} e.

Definition exn_message (e : Exn) : string :=
  match e with
  | KeyError k => "'" +:+ k +:+ "'"
  | AttributeError a => a
  | Exception m => m
  | ExternalError m => m
  end.

Inductive Event :=
| EvPrint (msg : string)
| EvSnapshotDownload (repo_id : string)
| EvRelease (h : Handle)
| EvCtorCall (infu_model_path model_version : string)
             (quantize_8bit cpu_offload : bool)
| EvCtorReturn (h : Handle)
| EvDeleteAdapters (h : Handle) (names : list string)
| EvLoadLoras (h : Handle) (loras : list Lora)
| EvInfer (h : Handle) (args : CallArgs)
| EvMakedirs (created : bool)
| EvSave (out_name : pystr) (overwrote : bool)
| EvGrError (msg : string).

(** ** The world *)

Record World := mkWorld {
  loaded_pipeline_config : gmap string PyVal;
  models_downloaded : bool;
  heap : gmap Handle Pipeline;          (* live pipeline objects *)
  next_handle : Handle;                 (* identity of the next object *)
  results_dir : option (gmap pystr Image);  (* OUTPUT_DIR, None when absent *)
  log : list Event;
}.

(** What the libraries do on one request: which external call raises, what
    [torch.seed()] draws, what the pipeline call produces. *)
Record Oracle := mkOracle {
  snapshot_infu_raises : option string;
  snapshot_flux_raises : option string;
  ctor_raises : option string;
  delete_adapters_raises : option string;
  load_loras_raises : option string;
  torch_seed : Z;
  call_result : Pipeline → CallArgs → Image + string;
  save_raises : option string;
}.

(** ** State and exception monad

    A raised exception keeps every mutation made before it: Python does not
    roll the dictionary back. *)
Definition M (A : Type) : Type := World → World * result A.

Global Instance M_ret : MRet M := λ A a w, (w, Ok a).
Global Instance M_bind : MBind M := λ A B f m w,
  match m w with
  | (w', Ok a) => f a w'
  | (w', Raise e) => (w', Raise e)
  end.

Definition raise {A} (e : Exn) : M A := λ w, (w, Raise e).

Definition modify (f : World → World) : M unit := λ w, (f w, Ok tt).

Definition emit (e : Event) : M unit :=
  modify (λ w, mkWorld (loaded_pipeline_config w) (models_downloaded w) (heap w)
                       (next_handle w) (results_dir w) (log w ++ [e])).

Definition set_config (f : gmap string PyVal → gmap string PyVal) (w : World) : World :=
  mkWorld (f (loaded_pipeline_config w)) (models_downloaded w) (heap w)
          (next_handle w) (results_dir w) (log w).

Definition set_heap (f : gmap Handle Pipeline → gmap Handle Pipeline) (w : World) : World :=
  mkWorld (loaded_pipeline_config w) (models_downloaded w) (f (heap w))
          (next_handle w) (results_dir w) (log w).

(** [loaded_pipeline_config[k]] *)
Definition getitem (k : string) : M PyVal := λ w,
  match loaded_pipeline_config w !! k with
  | Some v => (w, Ok v)
  | None => (w, Raise (KeyError k))
  end.

(** [loaded_pipeline_config[k] = v] *)
Definition setitem (k : string) (v : PyVal) : M unit :=
  modify (set_config (insert k v)).

(** [del loaded_pipeline_config[k]] *)
Definition delitem (k : string) : M unit := λ w,
  match loaded_pipeline_config w !! k with
  | Some _ => (set_config (delete k) w, Ok tt)
  | None => (w, Raise (KeyError k))
  end.

(** Short-circuit [a and b] on conditions. *)
Definition and_then (a b : M bool) : M bool :=
  x ← a; if x : bool then b else mret false.

(** [pipeline.model_version] *)
Definition get_model_version (p : PyVal) : M string := λ w,
  match p with
  | VPipe h =>
      match heap w !! h with
      | Some o => (w, Ok (model_version_of o))
      | None => (w, Raise (AttributeError "model_version"))
      end
  | _ => (w, Raise (AttributeError "model_version"))
  end.

(** The block
    [del pipeline; del loaded_pipeline_config['pipeline']; gc.collect();
     torch.cuda.empty_cache()]:
    the key leaves the dictionary, and the object, now unreferenced, is
    collected and its accelerator memory returned. *)
Definition release (p : PyVal) : M unit :=
  delitem "pipeline";;
  match p with
  | VPipe h => modify (set_heap (delete h));; emit (EvRelease h)
  | _ => mret tt
  end.

(** [InfUFluxPipeline(base_model_path=..., infu_model_path=model_path, ...,
     model_version=..., quantize_8bit=..., cpu_offload=...)] *)
Definition InfUFluxPipeline (o : Oracle) (infu_model_path model_version : string)
    (quantize_8bit cpu_offload : bool) : M PyVal :=
  emit (EvCtorCall infu_model_path model_version quantize_8bit cpu_offload);;
  match ctor_raises o with
  | Some msg => raise (ExternalError msg)
  | None =>
      λ w,
        let h := next_handle w in
        let obj := mkPipeline model_version quantize_8bit cpu_offload [] in
        (mkWorld (loaded_pipeline_config w) (models_downloaded w)
                 (<[h := obj]> (heap w)) (S h) (results_dir w)
                 (log w ++ [EvCtorReturn h]), Ok (VPipe h))
  end.

(** [pipeline.pipe.delete_adapters(names)] *)
Definition delete_adapters (o : Oracle) (p : PyVal) (names : list string) : M unit :=
  match p with
  | VPipe h =>
      emit (EvDeleteAdapters h names);;
      match delete_adapters_raises o with
      | Some msg => raise (ExternalError msg)
      | None =>
          modify (set_heap (alter (λ obj, mkPipeline (model_version_of obj)
                      (quantize_8bit_of obj) (cpu_offload_of obj)
                      (filter (λ a, a ∉ names) (adapters obj))) h))
      end
  | _ => raise (AttributeError "pipe")
  end.

(** [pipeline.load_loras(loras)] *)
Definition load_loras (o : Oracle) (p : PyVal) (loras : list Lora) : M unit :=
  match p with
  | VPipe h =>
      emit (EvLoadLoras h loras);;
      match load_loras_raises o with
      | Some msg => raise (ExternalError msg)
      | None =>
          modify (set_heap (alter (λ obj, mkPipeline (model_version_of obj)
                      (quantize_8bit_of obj) (cpu_offload_of obj)
                      (adapters obj ++ map lora_name loras)) h))
      end
  | _ => raise (AttributeError "load_loras")
  end.

(** ** [prepare_pipeline] (app.py, lines 81-131) *)

Definition realism_lora : Lora :=
  mkLora "./models/InfiniteYou/supports/optional_loras/flux_realism_lora.safetensors"
         "realism" 1.
Definition anti_blur_lora : Lora :=
  mkLora "./models/InfiniteYou/supports/optional_loras/flux_anti_blur_lora.safetensors"
         "anti_blur" 1.

(** The condition of lines 82-89, evaluated left to right. *)
Definition is_cache_hit (model_version : string)
    (enable_realism enable_anti_blur quantize_8bit cpu_offload : bool) : M bool :=
  and_then (p ← getitem "pipeline"; mret (negb (is_None p)))
 (and_then (v ← getitem "enable_realism"; mret (py_eq v (VBool enable_realism)))
 (and_then (v ← getitem "enable_anti_blur"; mret (py_eq v (VBool enable_anti_blur)))
 (and_then (v ← getitem "quantize_8bit"; mret (py_eq v (VBool quantize_8bit)))
 (and_then (v ← getitem "cpu_offload"; mret (py_eq v (VBool cpu_offload)))
           (v ← getitem "model_version"; mret (py_eq (VStr model_version) v)))))).

(** Lines 123-131: drop both optional adapters, load the enabled ones. *)
Definition reload_loras (o : Oracle) (pipeline : PyVal)
    (enable_realism enable_anti_blur : bool) : M PyVal :=
  delete_adapters o pipeline ["realism"; "anti_blur"];;
  let loras :=
    ((if enable_realism then [realism_lora] else []) ++
     (if enable_anti_blur then [anti_blur_lora] else []))%list in
  load_loras o pipeline loras;;
  mret pipeline.

(** Lines 100-121: the body of [if pipeline is None or ...]. *)
Definition switch_model (o : Oracle) (pipeline : PyVal) (model_version : string)
    (quantize_8bit cpu_offload : bool) : M PyVal :=
  emit (EvPrint ("Switching model to " +:+ model_version));;
  (if negb (is_None pipeline) then release pipeline else mret tt);;
  let model_path := "./models/InfiniteYou/infu_flux_v1.0/" +:+ model_version in
  emit (EvPrint ("Loading model from " +:+ model_path));;
  pipeline ← InfUFluxPipeline o model_path model_version quantize_8bit cpu_offload;
  setitem "pipeline" pipeline;;
  mret pipeline.

(** Lines 92-131: what happens when the test of lines 82-89 fails. *)
Definition rebuild_and_reload (o : Oracle) (model_version : string)
    (enable_realism enable_anti_blur quantize_8bit cpu_offload : bool) : M PyVal :=
  setitem "enable_realism" (VBool enable_realism);;
  setitem "enable_anti_blur" (VBool enable_anti_blur);;
  setitem "quantize_8bit" (VBool quantize_8bit);;
  setitem "cpu_offload" (VBool cpu_offload);;
  setitem "model_version" (VStr model_version);;
  pipeline ← getitem "pipeline";
  rebuild ←
    (if is_None pipeline then mret true
     else mv ← get_model_version pipeline;
          mret (negb (bool_decide (mv = model_version))));
  pipeline ←
    (if rebuild : bool
     then switch_model o pipeline model_version quantize_8bit cpu_offload
     else mret pipeline);
  reload_loras o pipeline enable_realism enable_anti_blur.

Definition prepare_pipeline (o : Oracle) (model_version : string)
    (enable_realism enable_anti_blur quantize_8bit cpu_offload : bool) : M PyVal :=
  hit ← is_cache_hit model_version enable_realism enable_anti_blur
                     quantize_8bit cpu_offload;
  if hit : bool then getitem "pipeline"
  else rebuild_and_reload o model_version enable_realism enable_anti_blur
                          quantize_8bit cpu_offload.

(** Module initialisation: [models_downloaded = False] and the initial
    [loaded_pipeline_config]; nothing is resident, nothing logged.  The
    results directory is whatever the file system holds. *)
Definition initial_config : gmap string PyVal :=
  <["model_version" := VStr "aes_stage2"]>
  (<["enable_realism" := VBool false]>
  (<["enable_anti_blur" := VBool false]>
  (<["quantize_8bit" := VBool false]>
  (<["cpu_offload" := VBool false]>
  (<["pipeline" := VNone]> ∅))))).

Definition initial_world (dir : option (gmap pystr Image)) : World :=
  mkWorld initial_config false ∅ 0%nat dir [].

(** ** [download_models] (app.py, lines 64-79) *)

Definition snapshot_download (raises : option string) (repo_id : string) : M unit :=
  emit (EvSnapshotDownload repo_id);;
  match raises with
  | Some msg => raise (ExternalError msg)
  | None => mret tt
  end.

(** [try: body except Exception as e: handler e] *)
Definition try_except {A} (body : M A) (handler : Exn → M A) : M A := λ w,
  match body w with
  | (w', Ok a) => (w', Ok a)
  | (w', Raise e) => handler e w'
  end.

Definition download_models (o : Oracle) : M unit := λ w,
  if models_downloaded w then (w, Ok tt)
  else
    (snapshot_download (snapshot_infu_raises o) "ByteDance/InfiniteYou";;
     try_except
       (snapshot_download (snapshot_flux_raises o) "black-forest-labs/FLUX.1-dev")
       (λ e,
          emit (EvPrint (exn_message e));;
          emit (EvPrint "
You are downloading `black-forest-labs/FLUX.1-dev` to `./models/FLUX.1-dev` but failed. Please accept the agreement and obtain access at https://huggingface.co/black-forest-labs/FLUX.1-dev. Then, use `huggingface-cli login` and your access tokens at https://huggingface.co/settings/tokens to authenticate. After that, run the code again.");;
          emit (EvPrint "
You can also download it manually from HuggingFace and put it in `./models/InfiniteYou`, or you can modify `base_model_path` in `app.py` to specify the correct path.");;
          raise (Exception "Model download failed"));;
     modify (λ w, mkWorld (loaded_pipeline_config w) true (heap w)
                          (next_handle w) (results_dir w) (log w))) w.

(** ** Text helpers of the saving block *)

(** [str(n)] for an integer. *)
Definition str (n : Z) : pystr := lit (pretty n).

(** [f"{index:05d}"] for a length: decimal digits, padded on the left with
    zeros up to width five. *)
Definition format_05d (index : nat) : pystr :=
  let ds := lit (pretty index) in
  (replicate (5 - length ds) 48%N ++ ds)%list.

(** [s.replace(' ', '_')] *)
Definition replace_space (s : pystr) : pystr :=
  map (λ c, if (c =? 32)%N then 95%N else c) s.

(** [s.lstrip('_')], [s.rstrip('_')], [s.strip('_')] *)
Fixpoint lstrip_us (s : pystr) : pystr :=
  match s with
  | c :: s' => if (c =? 95)%N then lstrip_us s' else s
  | [] => []
  end.
Definition rstrip_us (s : pystr) : pystr := rev (lstrip_us (rev s)).
Definition strip_us (s : pystr) : pystr := rstrip_us (lstrip_us s).

(** [posixpath.join(a, b)] *)
Definition os_path_join (a b : pystr) : pystr :=
  match b with
  | 47%N :: _ => b
  | _ =>
      match last a with
      | None => b
      | Some 47%N => (a ++ b)%list
      | Some _ => (a ++ 47%N :: b)%list
      end
  end.

Definition OUTPUT_DIR : pystr := lit "./results".

Record GrUpdate := mkGrUpdate {
  upd_value : option Image;
  upd_label : option pystr;
}.

Section WithUnicodeTable.

(** [str.isalnum] outside ASCII is a lookup in the Unicode character
    database of the interpreter. *)
Variable unicode_isalnum : N → bool.

(** [c.isalnum()] for a one-character string. *)
Definition isalnum (c : N) : bool :=
  if (c <? 128)%N then
    ((48 <=? c) && (c <=? 57) || (65 <=? c) && (c <=? 90)
     || (97 <=? c) && (c <=? 122))%N
  else unicode_isalnum c.

(** [c if c.isalnum() or c in '_-' else '_'] *)
Definition sanitize_char (c : N) : N :=
  if isalnum c || bool_decide (c ∈ lit "_-") then c else 95%N.

(** [''.join(... for c in prompt[:50].replace(' ', '_')).strip('_')] *)
Definition prompt_name (prompt : pystr) : pystr :=
  strip_us (map sanitize_char (replace_space (take 50 prompt))).

(** [f"{index:05d}_{prompt_name}_seed{seed}.png"] *)
Definition out_name (index : nat) (prompt : pystr) (seed : Z) : pystr :=
  (format_05d index ++ lit "_" ++ prompt_name prompt ++ lit "_seed"
     ++ str seed ++ lit ".png")%list.

(** [os.makedirs(OUTPUT_DIR, exist_ok=True)] *)
Definition makedirs : M unit := λ w,
  match results_dir w with
  | Some _ => emit (EvMakedirs false) w
  | None =>
      (emit (EvMakedirs true);;
       modify (λ w, mkWorld (loaded_pipeline_config w) (models_downloaded w)
                 (heap w) (next_handle w) (Some ∅) (log w))) w
  end.

(** [len(os.listdir(OUTPUT_DIR))] *)
Definition listdir_len : M nat := λ w,
  match results_dir w with
  | Some d => (w, Ok (size d))
  | None => (w, Raise (ExternalError "No such file or directory"))
  end.

(** The directory entry a path denotes when it lies directly inside
    [OUTPUT_DIR]. *)
Fixpoint strip_prefix (pre s : pystr) : option pystr :=
  match pre, s with
  | [], _ => Some s
  | a :: pre', b :: s' => if (a =? b)%N then strip_prefix pre' s' else None
  | _ :: _, [] => None
  end.

Definition entry_of (out_path : pystr) : option pystr :=
  match strip_prefix (OUTPUT_DIR ++ lit "/")%list out_path with
  | Some name =>
      if bool_decide (47%N ∈ name) || bool_decide (name = []) then None
      else Some name
  | None => None
  end.

(** [image.save(out_path)]: creates the file or replaces its content.  The
    results area is flat; a path that would need a sub-directory fails. *)
Definition image_save (o : Oracle) (image : Image) (out_path : pystr) : M unit := λ w,
  match save_raises o with
  | Some msg => (w, Raise (ExternalError msg))
  | None =>
      match results_dir w, entry_of out_path with
      | Some d, Some name =>
          (mkWorld (loaded_pipeline_config w) (models_downloaded w) (heap w)
                   (next_handle w) (Some (<[name := image]> d))
                   (log w ++ [EvSave name (bool_decide (is_Some (d !! name)))]),
           Ok tt)
      | _, _ => (w, Raise (ExternalError "No such file or directory"))
      end
  end.

(** [pipeline(id_image=..., prompt=..., ..., cpu_offload=...)] *)
Definition call_pipeline (o : Oracle) (p : PyVal) (args : CallArgs) : M Image := λ w,
  match p with
  | VPipe h =>
      match heap w !! h with
      | Some obj =>
          (emit (EvInfer h args);;
           match call_result o obj args with
           | inl image => mret image
           | inr msg => raise (ExternalError msg)
           end) w
      | None => (w, Raise (ExternalError "pipeline object is gone"))
      end
  | _ => (w, Raise (ExternalError "object is not callable"))
  end.

(** Lines 182-187: the saving block of [generate_image]. *)
Definition save_image (o : Oracle) (image : Image) (prompt : pystr) (seed : Z) : M pystr :=
  makedirs;;
  index ← listdir_len;
  let out_name := out_name index prompt seed in
  let out_path := os_path_join OUTPUT_DIR out_name in
  image_save o image out_path;;
  mret out_path.

(** ** [generate_image] (app.py, lines 133-192) *)

(** Lines 163-164: [if seed == 0: seed = torch.seed() & 0xFFFFFFFF]. *)
Definition draw_seed (o : Oracle) (seed : Z) : Z :=
  if seed =? 0 then Z.land (torch_seed o) 0xFFFFFFFF else seed.

Definition generate_image (o : Oracle)
    (input_image control_image : option Image) (prompt : pystr) (seed : Z)
    (width height : Z) (guidance_scale : Q) (num_steps : Z)
    (infusenet_conditioning_scale infusenet_guidance_start
     infusenet_guidance_end : Q)
    (enable_realism enable_anti_blur quantize_8bit cpu_offload : bool)
    (model_version : string) : M (GrUpdate * pystr) :=
  download_models o;;
  pipeline ← prepare_pipeline o model_version enable_realism enable_anti_blur
                              quantize_8bit cpu_offload;
  let seed := draw_seed o seed in
  try_except
    (image ← call_pipeline o pipeline
               (mkCallArgs input_image prompt control_image seed width height
                  guidance_scale num_steps infusenet_conditioning_scale
                  infusenet_guidance_start infusenet_guidance_end cpu_offload);
     out_path ← save_image o image prompt seed;
     mret (mkGrUpdate (Some image)
             (Some (lit "Generated Image, seed=" ++ str seed
                      ++ lit ", saved to " ++ out_path)%list),
           str seed))
    (λ e,
       emit (EvPrint (exn_message e));;
       emit (EvGrError ("An error occurred: " +:+ exn_message e));;
       mret (mkGrUpdate None None, str seed)).

(** [generate_examples]: the defaults of the examples table. *)
Definition generate_examples (o : Oracle) (id_image control_image : option Image)
    (prompt_text : pystr) (seed : Z) (enable_realism enable_anti_blur : bool)
    (model_version : string) : M (GrUpdate * pystr) :=
  generate_image o id_image control_image prompt_text seed 864 1152 (35 # 10) 30
    1 0 1 enable_realism enable_anti_blur true true model_version.

End WithUnicodeTable.

(** ** Configurations and the cache invariant *)

(** The arguments of [prepare_pipeline] as one value (the spec's
    PipelineConfig). *)
Record Config := mkConfig {
  variant : string;
  realism : bool;
  anti_blur : bool;
  quantized : bool;
  offload : bool;
}.

Definition prepare (o : Oracle) (c : Config) : M PyVal :=
  prepare_pipeline o (variant c) (realism c) (anti_blur c) (quantized c) (offload c).

(** The five inserts of lines 92-96. *)
Definition record_config (c : Config) (m : gmap string PyVal) : gmap string PyVal :=
  <["model_version" := VStr (variant c)]>
  (<["cpu_offload" := VBool (offload c)]>
  (<["quantize_8bit" := VBool (quantized c)]>
  (<["enable_anti_blur" := VBool (anti_blur c)]>
  (<["enable_realism" := VBool (realism c)]> m)))).

(** The dictionary records [c]. *)
Definition records (c : Config) (m : gmap string PyVal) : Prop :=
  m !! "enable_realism" = Some (VBool (realism c)) ∧
  m !! "enable_anti_blur" = Some (VBool (anti_blur c)) ∧
  m !! "quantize_8bit" = Some (VBool (quantized c)) ∧
  m !! "cpu_offload" = Some (VBool (offload c)) ∧
  m !! "model_version" = Some (VStr (variant c)).

(** The [loras] list built on lines 124-128. *)
Definition loras_of (c : Config) : list Lora :=
  (if realism c then [realism_lora] else []) ++
  (if anti_blur c then [anti_blur_lora] else []).

(** States the cache goes through while every key is in place: the flag
    keys are present, and either nothing is resident, or exactly one live
    object is, built for the recorded model version. *)
Definition cache_inv (w : World) : Prop :=
  let m := loaded_pipeline_config w in
  is_Some (m !! "enable_realism") ∧
  is_Some (m !! "enable_anti_blur") ∧
  is_Some (m !! "quantize_8bit") ∧
  is_Some (m !! "cpu_offload") ∧
  is_Some (m !! "model_version") ∧
  ((m !! "pipeline" = Some VNone ∧ heap w = ∅) ∨
   (∃ h obj, m !! "pipeline" = Some (VPipe h) ∧ heap w = {[h := obj]} ∧
             m !! "model_version" = Some (VStr (model_version_of obj)) ∧
             (h < next_handle w)%nat)).

(** Events of a run: what the log gained. *)
Definition is_ctor_call (e : Event) : bool :=
  match e with EvCtorCall _ _ _ _ => true | _ => false end.

Definition reconstructions (evs : list Event) : nat :=
  length (filter (λ e, is_ctor_call e = true) evs).

Definition is_adapter_event (h : Handle) (e : Event) : bool :=
  match e with
  | EvDeleteAdapters h' _ | EvLoadLoras h' _ => bool_decide (h' = h)
  | _ => false
  end.

(** The objects alive after an event, and after a sequence of events,
    starting from [live]. *)
Definition live_step (live : gset Handle) (e : Event) : gset Handle :=
  match e with
  | EvCtorReturn h => {[h]} ∪ live
  | EvRelease h => live ∖ {[h]}
  | _ => live
  end.

Fixpoint live_after (live : gset Handle) (evs : list Event) : gset Handle :=
  match evs with
  | [] => live
  | e :: evs' => live_after (live_step live e) evs'
  end.

(** No two objects are ever alive along the trace. *)
Fixpoint always_le1 (live : gset Handle) (evs : list Event) : Prop :=
  (size live ≤ 1)%nat ∧
  match evs with
  | [] => True
  | e :: evs' => always_le1 (live_step live e) evs'
  end.

(** The hit test of lines 82-89 on the six values it reads. *)
Definition hit_b (c : Config) (p v1 v2 v3 v4 v5 : PyVal) : bool :=
  negb (is_None p) && (py_eq v1 (VBool (realism c)) &&
  (py_eq v2 (VBool (anti_blur c)) && (py_eq v3 (VBool (quantized c)) &&
  (py_eq v4 (VBool (offload c)) && py_eq (VStr (variant c)) v5)))).

Definition ascii_only : N → bool := λ _, false.

Definition quiet : Oracle :=
  mkOracle None None None None None 0 (λ _ _, inl (MkImage 0)) None.

(** ** Requests, text helpers and sample data used in the statements *)

Definition plain : Config := mkConfig "aes_stage2" false false false false.
Definition plain_8bit : Config := mkConfig "aes_stage2" false false true false.
Definition other_stage : Config := mkConfig "sim_stage1" false false false false.

Definition weights_missing : Oracle :=
  mkOracle None None (Some "weights missing") None None 0
           (λ _ _, inl (MkImage 0)) None.

Definition plain_realism : Config := mkConfig "aes_stage2" true false false false.

(** The image and sampling inputs of one request. *)
Record Inputs := mkInputs {
  in_id_image : option Image;
  in_control_image : option Image;
  in_prompt : pystr;
  in_width : Z;
  in_height : Z;
  in_guidance_scale : Q;
  in_num_steps : Z;
  in_conditioning_scale : Q;
  in_guidance_start : Q;
  in_guidance_end : Q;
}.

(** One call of [generate_image]. *)
Definition request (ua : N → bool) (i : Inputs) (o : Oracle) (seed : Z)
    (c : Config) : M (GrUpdate * pystr) :=
  generate_image ua o (in_id_image i) (in_control_image i) (in_prompt i) seed
    (in_width i) (in_height i) (in_guidance_scale i) (in_num_steps i)
    (in_conditioning_scale i) (in_guidance_start i) (in_guidance_end i)
    (realism c) (anti_blur c) (quantized c) (offload c) (variant c).

(** The keyword arguments it passes to the pipeline. *)
Definition request_args (i : Inputs) (o : Oracle) (seed : Z) (c : Config) : CallArgs :=
  mkCallArgs (in_id_image i) (in_prompt i) (in_control_image i)
    (draw_seed o seed) (in_width i) (in_height i) (in_guidance_scale i)
    (in_num_steps i) (in_conditioning_scale i) (in_guidance_start i)
    (in_guidance_end i) (offload c).

Definition portrait : Inputs :=
  mkInputs None None (lit "Portrait, 4K, high quality, cinematic")
           864 1152 (35 # 10) 30 1 0 1.

Definition seed_wraps_to_zero : Oracle :=
  mkOracle None None None None None (2 ^ 32) (λ _ _, inl (MkImage 0)) None.

Definition out_of_memory : Oracle :=
  mkOracle None None None None None 77 (λ _ _, inr "CUDA out of memory") None.

Definition is_digit (c : N) : bool := ((48 <=? c) && (c <=? 57))%N.

(** The number a string of decimal digits denotes ([int(s)]). *)
Definition int_of_digits (s : pystr) : N :=
  fold_left (λ a c, a * 10 + (c - 48))%N s 0%N.

(** The digits a file name starts with, and the number they denote. *)
Fixpoint leading_digits (s : pystr) : pystr :=
  match s with
  | c :: s' => if is_digit c then c :: leading_digits s' else []
  | [] => []
  end.

Definition seq_number (name : pystr) : N := int_of_digits (leading_digits name).

(** [c] may appear in a sanitized prompt: alphanumeric, ['_'] or ['-']. *)
Definition allowed (ua : N → bool) (c : N) : bool :=
  isalnum ua c || (c =? 95)%N || (c =? 45)%N.

(** The sanitization in the spec's words: truncate the prompt to a prefix of
    50 characters, replace every character that is not alphanumeric, ['_'] or
    ['-'] by ['_'], strip leading and trailing ['_']. *)
Definition spec_sanitized_prefix (ua : N → bool) (prompt : pystr) : pystr :=
  strip_us (map (λ c, if allowed ua c then c else 95%N) (take 50 prompt)).

Definition one_hundred_thousand : nat := N.to_nat 100000.

(** One save: the oracle of the request, the image, the prompt, the seed. *)
Record SaveReq := mkSaveReq {
  sr_oracle : Oracle;
  sr_image : Image;
  sr_prompt : pystr;
  sr_seed : Z;
}.

(** Saves made one after the other, as consecutive requests make them. *)
Fixpoint save_all (ua : N → bool) (reqs : list SaveReq) : M (list pystr) :=
  match reqs with
  | [] => mret []
  | r :: rest =>
      path ← save_image ua (sr_oracle r) (sr_image r) (sr_prompt r) (sr_seed r);
      paths ← save_all ua rest;
      mret (path :: paths)
  end.

(** The files in the results area (none while the directory is absent). *)
Definition entries (w : World) : gmap pystr Image := default ∅ (results_dir w).

Definition is_fresh_save (e : Event) : bool :=
  match e with EvSave _ false => true | _ => false end.

Definition is_save (e : Event) : bool :=
  match e with EvSave _ _ => true | _ => false end.

Definition three_saves : list SaveReq :=
  [ mkSaveReq quiet (MkImage 1) (lit "a/b ../c") 7;
    mkSaveReq quiet (MkImage 2) (lit "say 'hi'") 7;
    mkSaveReq quiet (MkImage 3) [128512%N; 32%N; 128512%N] 7 ].

(** ** Definitions for the further properties *)

Definition flux_denied : Oracle :=
  mkOracle None (Some "401 Client Error") None None None 0
           (λ _ _, inl (MkImage 0)) None.

Definition registry_down : Oracle :=
  mkOracle (Some "Connection refused") None None None None 0
           (λ _ _, inl (MkImage 0)) None.

(** The variant of the resident pipeline, as the dictionary records it. *)
Definition resident_variant (w : World) : option string :=
  match loaded_pipeline_config w !! "pipeline",
        loaded_pipeline_config w !! "model_version" with
  | Some (VPipe _), Some (VStr mv) => Some mv
  | _, _ => None
  end.

Definition is_release (e : Event) : bool :=
  match e with EvRelease _ => true | _ => false end.

Definition releases (evs : list Event) : nat :=
  length (filter (λ e, is_release e = true) evs).

(** The adapter names lines 124-128 load for the two check boxes. *)
Definition lora_names (enable_realism enable_anti_blur : bool) : list string :=
  (if enable_realism then ["realism"] else []) ++
  (if enable_anti_blur then ["anti_blur"] else []).

(** The resident object carries exactly the adapters the dictionary
    records as enabled. *)
Definition adapters_sync (w : World) : Prop :=
  ∃ er eab,
    loaded_pipeline_config w !! "enable_realism" = Some (VBool er) ∧
    loaded_pipeline_config w !! "enable_anti_blur" = Some (VBool eab) ∧
    ∀ h obj, loaded_pipeline_config w !! "pipeline" = Some (VPipe h) →
             heap w !! h = Some obj → adapters obj = lora_names er eab.

Definition loras_fail : Oracle :=
  mkOracle None None None None (Some "lora file missing") 0
           (λ _ _, inl (MkImage 0)) None.

(** The key ['pipeline'] is gone and no object is alive: the state a failed
    switch of variants leaves behind. *)
Definition key_lost (w : World) : Prop :=
  loaded_pipeline_config w !! "pipeline" = None ∧ heap w = ∅.

(** One request as the UI submits it. *)
Record Request := mkRequest {
  rq_oracle : Oracle;
  rq_inputs : Inputs;
  rq_seed : Z;
  rq_config : Config;
}.

(** The state after serving requests one after the other; what a request
    returns or raises goes to its caller. *)
Fixpoint serve (ua : N → bool) (rs : list Request) (w : World) : World :=
  match rs with
  | [] => w
  | r :: rs' =>
      serve ua rs'
        (request ua (rq_inputs r) (rq_oracle r) (rq_seed r) (rq_config r) w).1
  end.

(** Events of loading models or changing the resident pipeline. *)
Definition is_model_work (e : Event) : bool :=
  match e with
  | EvSnapshotDownload _ | EvRelease _ | EvCtorCall _ _ _ _ | EvCtorReturn _
  | EvDeleteAdapters _ _ | EvLoadLoras _ _ => true
  | _ => false
  end.

(** The oracle [o] with another outcome of the pipeline call. *)
Definition with_call_result (o : Oracle)
    (f : Pipeline → CallArgs → Image + string) : Oracle :=
  mkOracle (snapshot_infu_raises o) (snapshot_flux_raises o) (ctor_raises o)
           (delete_adapters_raises o) (load_loras_raises o) (torch_seed o)
           f (save_raises o).

(** The oracle [o] with another value drawn by [torch.seed()]. *)
Definition with_torch_seed (o : Oracle) (drawn : Z) : Oracle :=
  mkOracle (snapshot_infu_raises o) (snapshot_flux_raises o) (ctor_raises o)
           (delete_adapters_raises o) (load_loras_raises o) drawn
           (call_result o) (save_raises o).

Definition disk_full : Oracle :=
  mkOracle None None None None None 0 (λ _ _, inl (MkImage 5))
           (Some "No space left on device").

Definition example_inputs (id_image control_image : option Image)
    (prompt_text : pystr) : Inputs :=
  mkInputs id_image control_image prompt_text 864 1152 (35 # 10) 30 1 0 1.

Definition example_config (enable_realism enable_anti_blur : bool)
    (model_version : string) : Config :=
  mkConfig model_version enable_realism enable_anti_blur true true.

Definition two_requests : list Request :=
  [ mkRequest quiet portrait 7 plain;
    mkRequest weights_missing portrait 0 other_stage ].

(** Lines 166-192: the [try] block and its handler, as [generate_image]
    runs them on the prepared pipeline. *)
Definition infer_and_save (ua : N → bool) (i : Inputs) (o : Oracle) (seed : Z)
    (c : Config) (pipeline : PyVal) : M (GrUpdate * pystr) :=
  try_except
    (image ← call_pipeline o pipeline (request_args i o seed c);
     out_path ← save_image ua o image (in_prompt i) (draw_seed o seed);
     mret (mkGrUpdate (Some image)
             (Some (lit "Generated Image, seed=" ++ str (draw_seed o seed)
                      ++ lit ", saved to " ++ out_path)),
           str (draw_seed o seed)))
    (λ e,
       emit (EvPrint (exn_message e));;
       emit (EvGrError ("An error occurred: " +:+ exn_message e));;
       mret (mkGrUpdate None None, str (draw_seed o seed))).

Definition leftover_dir : gmap pystr Image :=
  {[ lit "00001_x_seed5.png" := MkImage 1 ]}.

Definition with_results (w : World) (d : gmap pystr Image) : World :=
  mkWorld (loaded_pipeline_config w) (models_downloaded w) (heap w)
          (next_handle w) (Some d) (log w).

(** * Theorems *)

Lemma cache_inv_initial dir : cache_inv (initial_world dir).
Proof.
  unfold cache_inv; simpl.
  repeat split; try (eexists; reflexivity).
  left. split; reflexivity.
Qed.

(** *** Stepping the monad *)

Lemma bind_ok {A B} (m : M A) (f : A → M B) w w' a :
  m w = (w', Ok a) → (m ≫= f) w = f a w'.
Proof. intros H. unfold mbind, M_bind. by rewrite H. Qed.

Lemma bind_raise {A B} (m : M A) (f : A → M B) w w' e :
  m w = (w', Raise e) → (m ≫= f) w = (w', Raise e).
Proof. intros H. unfold mbind, M_bind. by rewrite H. Qed.

Lemma getitem_Some k v w :
  loaded_pipeline_config w !! k = Some v → getitem k w = (w, Ok v).
Proof. intros H. unfold getitem. by rewrite H. Qed.

Lemma getitem_None k w :
  loaded_pipeline_config w !! k = None → getitem k w = (w, Raise (KeyError k)).
Proof. intros H. unfold getitem. by rewrite H. Qed.

Lemma is_cache_hit_eval c w p v1 v2 v3 v4 v5 :
  let m := loaded_pipeline_config w in
  m !! "pipeline" = Some p →
  m !! "enable_realism" = Some v1 →
  m !! "enable_anti_blur" = Some v2 →
  m !! "quantize_8bit" = Some v3 →
  m !! "cpu_offload" = Some v4 →
  m !! "model_version" = Some v5 →
  is_cache_hit (variant c) (realism c) (anti_blur c) (quantized c) (offload c) w
  = (w, Ok (hit_b c p v1 v2 v3 v4 v5)).
Proof.
  intros m Hp H1 H2 H3 H4 H5. subst m.
  unfold is_cache_hit, and_then, hit_b.
  repeat first
    [ erewrite (bind_ok (getitem _)) by (apply getitem_Some; eassumption)
    | erewrite (bind_ok (mret _)) by reflexivity
    | erewrite (bind_ok (_ ≫= _)) by
        (erewrite (bind_ok (getitem _)) by (apply getitem_Some; eassumption);
         reflexivity)
    | match goal with |- context [if ?b then _ else _] => destruct b; simpl end
    | reflexivity ].
Qed.

Lemma is_cache_hit_None c w :
  loaded_pipeline_config w !! "pipeline" = Some VNone →
  is_cache_hit (variant c) (realism c) (anti_blur c) (quantized c) (offload c) w
  = (w, Ok false).
Proof.
  intros Hp. unfold is_cache_hit, and_then.
  erewrite (bind_ok (_ ≫= _)) by
    (erewrite (bind_ok (getitem _)) by (apply getitem_Some; eassumption);
     reflexivity).
  reflexivity.
Qed.

Lemma is_cache_hit_absent c w :
  loaded_pipeline_config w !! "pipeline" = None →
  is_cache_hit (variant c) (realism c) (anti_blur c) (quantized c) (offload c) w
  = (w, Raise (KeyError "pipeline")).
Proof.
  intros Hp. unfold is_cache_hit, and_then.
  erewrite (bind_raise (_ ≫= _)); [reflexivity|].
  erewrite (bind_raise (getitem _)); [reflexivity|].
  by apply getitem_None.
Qed.

Lemma hit_b_true c p v1 v2 v3 v4 v5 :
  hit_b c p v1 v2 v3 v4 v5 = true →
  p ≠ VNone ∧ v1 = VBool (realism c) ∧ v2 = VBool (anti_blur c) ∧
  v3 = VBool (quantized c) ∧ v4 = VBool (offload c) ∧ v5 = VStr (variant c).
Proof.
  unfold hit_b, py_eq. rewrite !andb_true_iff, !bool_decide_eq_true.
  intros (Hp & ? & ? & ? & ? & ?). repeat split; try done.
  intros ->. discriminate.
Qed.

Lemma hit_b_records c h v1 v2 v3 v4 v5 :
  v1 = VBool (realism c) → v2 = VBool (anti_blur c) →
  v3 = VBool (quantized c) → v4 = VBool (offload c) → v5 = VStr (variant c) →
  hit_b c (VPipe h) v1 v2 v3 v4 v5 = true.
Proof.
  intros -> -> -> -> ->. unfold hit_b, py_eq.
  rewrite !bool_decide_eq_true_2 by done. reflexivity.
Qed.

Ltac mrun :=
  repeat (progress (
    cbv beta iota zeta delta
      [rebuild_and_reload switch_model reload_loras release InfUFluxPipeline
       delete_adapters load_loras get_model_version delitem setitem getitem
       emit modify raise set_config set_heap mbind M_bind mret M_ret
       loaded_pipeline_config models_downloaded heap next_handle results_dir
       log is_None negb];
    rewrite ?lookup_insert_eq, ?lookup_singleton_eq;
    rewrite ?lookup_insert_ne by done;
    repeat match goal with
      | H : _ !! _ = _ |- _ => rewrite H
      | H : ctor_raises _ = _ |- _ => rewrite H
      | H : delete_adapters_raises _ = _ |- _ => rewrite H
      | H : load_loras_raises _ = _ |- _ => rewrite H
      | H : bool_decide _ = _ |- _ => rewrite H
      end)).

Ltac world_proj :=
  cbn [loaded_pipeline_config models_downloaded heap next_handle results_dir
       log] in *.

(** Case analysis of one call of [prepare] from a state satisfying
    [cache_inv]: nothing resident / hit / same variant / other variant,
    and for each the outcomes of the library calls. *)
Ltac adapter_cases o :=
  destruct (delete_adapters_raises o) eqn:Hdel;
  [ | destruct (load_loras_raises o) eqn:Hload ].

Ltac oracle_cases o :=
  destruct (ctor_raises o) eqn:Hctor;
  try match goal with
      | H : ctor_raises o = None |- _ => adapter_cases o
      end.

Ltac prepare_cases Hinv Hrun :=
  match type of Hrun with
  | prepare ?o ?c ?w = _ =>
      destruct w as [m md hp nh rd lg];
      destruct Hinv as ([v1 H1] & [v2 H2] & [v3 H3] & [v4 H4] & H5 & Hres);
      clear H5; world_proj;
      unfold prepare, prepare_pipeline in Hrun;
      destruct Hres as [[Hp Hh] | (h & obj & Hp & Hh & Hmv & Hlt)];
      simplify_eq;
      match goal with
      | H : _ !! "pipeline" = Some VNone |- _ =>
          erewrite bind_ok in Hrun by (apply is_cache_hit_None; eassumption);
          oracle_cases o;
          revert Hrun; mrun; intros Hrun
      | H : _ !! "pipeline" = Some (VPipe _) |- _ =>
          erewrite bind_ok in Hrun by
            (eapply is_cache_hit_eval; cbn [loaded_pipeline_config];
             eassumption);
          match type of Hrun with
          | context [hit_b ?a1 ?a2 ?a3 ?a4 ?a5 ?a6 ?a7] =>
              destruct (hit_b a1 a2 a3 a4 a5 a6 a7) eqn:Hhit
          end;
          revert Hrun; mrun; intros Hrun;
          try match goal with
              | H : hit_b _ _ _ _ _ _ _ = false |- _ =>
                  match type of Hrun with
                  | context [bool_decide ?P] =>
                      destruct (bool_decide P) eqn:Hsame
                  end;
                  match goal with
                  | H : bool_decide _ = true |- _ => adapter_cases o
                  | H : bool_decide _ = false |- _ => oracle_cases o
                  end;
                  revert Hrun; mrun; intros Hrun
              end
      end
  end.

Lemma records_record_config c m : records c (record_config c m).
Proof.
  unfold records, record_config.
  repeat split; rewrite ?lookup_insert_eq, ?lookup_insert_ne by done;
    rewrite ?lookup_insert_eq; done.
Qed.

Ltac solve_lookup :=
  repeat (progress (
    rewrite ?lookup_insert_eq;
    rewrite ?lookup_insert_ne by done;
    rewrite ?lookup_delete_ne by done));
  try done; try (eexists; reflexivity); eauto.

(** A successful [prepare] leaves the cache in a good state that records
    the requested configuration and holds the returned object. *)
Lemma prepare_ok_inv o c w w' p :
  cache_inv w → prepare o c w = (w', Ok p) →
  cache_inv w' ∧ records c (loaded_pipeline_config w') ∧
  ∃ h, p = VPipe h ∧ loaded_pipeline_config w' !! "pipeline" = Some (VPipe h).
Proof.
  intros Hinv Hrun.
  prepare_cases Hinv Hrun; simplify_eq; world_proj.
  - (* nothing resident, everything succeeds *)
    split; [|split].
    + unfold cache_inv; world_proj.
      split_and!; [solve_lookup..|].
      right. eexists nh, _. split; [solve_lookup|].
      rewrite !alter_insert_eq, insert_empty.
      split; [reflexivity|]. split; [solve_lookup | lia].
    + unfold records. repeat split; solve_lookup.
    + eexists. split; [reflexivity|]. solve_lookup.
  - (* hit *)
    apply hit_b_true in Hhit as (_ & ? & ? & ? & ? & ?). simplify_eq.
    split; [|split].
    + unfold cache_inv; world_proj.
      split_and!; [eauto..|]. right. eauto 10.
    + unfold records. split_and!; congruence.
    + eauto.
  - (* same variant *)
    apply bool_decide_eq_true in Hsame.
    split; [|split].
    + unfold cache_inv; world_proj.
      split_and!; [solve_lookup..|].
      right. eexists h, _. split; [solve_lookup|].
      rewrite !alter_singleton_eq.
      split; [reflexivity|]. split; [|done].
      simpl. rewrite Hsame. solve_lookup.
    + unfold records. repeat split; solve_lookup.
    + eexists. split; [reflexivity|]. solve_lookup.
  - (* other variant *)
    split; [|split].
    + unfold cache_inv; world_proj.
      split_and!; [solve_lookup..|].
      right. eexists nh, _. split; [solve_lookup|].
      rewrite delete_singleton_eq, !alter_insert_eq, insert_empty.
      split; [reflexivity|]. split; [solve_lookup | lia].
    + unfold records. repeat split; solve_lookup.
    + eexists. split; [reflexivity|]. solve_lookup.
Qed.

(** A request that finds its configuration recorded and an object in place
    returns that object and touches nothing. *)
Lemma prepare_hit o c w h :
  records c (loaded_pipeline_config w) →
  loaded_pipeline_config w !! "pipeline" = Some (VPipe h) →
  prepare o c w = (w, Ok (VPipe h)).
Proof.
  intros (H1 & H2 & H3 & H4 & H5) Hp.
  unfold prepare, prepare_pipeline.
  erewrite bind_ok by (eapply is_cache_hit_eval; simpl; eassumption).
  rewrite hit_b_records by done.
  by apply getitem_Some.
Qed.

(** Once the key ['pipeline'] is gone, every call stops at line 83. *)
Lemma prepare_key_absent o c w :
  loaded_pipeline_config w !! "pipeline" = None →
  prepare o c w = (w, Raise (KeyError "pipeline")).
Proof.
  intros Hp. unfold prepare, prepare_pipeline.
  erewrite bind_raise; [reflexivity|]. by apply is_cache_hit_absent.
Qed.

Lemma reconstructions_app evs1 evs2 :
  reconstructions (evs1 ++ evs2) = (reconstructions evs1 + reconstructions evs2)%nat.
Proof. unfold reconstructions. by rewrite filter_app, length_app. Qed.

Ltac flat_log := rewrite <- ?app_assoc; cbn [app].

Lemma live_after_app live evs1 evs2 :
  live_after live (evs1 ++ evs2) = live_after (live_after live evs1) evs2.
Proof.
  revert live. induction evs1 as [|e evs1 IH]; intros live; [done|].
  simpl. apply IH.
Qed.

Lemma always_le1_app live evs1 evs2 :
  always_le1 live (evs1 ++ evs2) ↔
  always_le1 live evs1 ∧ always_le1 (live_after live evs1) evs2.
Proof.
  revert live. induction evs1 as [|e evs1 IH]; intros live.
  - simpl. destruct evs2; simpl; tauto.
  - simpl. rewrite IH. tauto.
Qed.

(** [always_le1] says what it should: after every prefix of the trace at
    most one object is alive. *)
Lemma always_le1_prefix live evs :
  always_le1 live evs ↔
  ∀ pre, pre `prefix_of` evs → (size (live_after live pre) ≤ 1)%nat.
Proof.
  split.
  - intros H pre [post ->]. apply always_le1_app in H as [_ H].
    destruct post; simpl in H; tauto.
  - revert live. induction evs as [|e evs IH]; intros live H.
    + simpl. split; [|done]. apply (H []). done.
    + simpl. split; [apply (H []), prefix_nil|].
      apply IH. intros pre Hpre. apply (H (e :: pre)). by apply prefix_cons.
Qed.

Ltac size_le1 :=
  match goal with
  | |- (size ?X ≤ 1)%nat =>
      first
        [ rewrite size_empty; lia
        | rewrite size_singleton; lia
        | assert (X = ∅) as -> by set_solver; rewrite size_empty; lia
        | match goal with
          | n : nat |- _ =>
              assert (X = {[n]}) as -> by set_solver;
              rewrite size_singleton; lia
          end ]
  end.

Ltac dom_norm :=
  rewrite ?dom_alter_L, ?dom_insert_L, ?dom_delete_L, ?dom_singleton_L,
          ?dom_empty_L.

(** Along one call of [prepare] at most one object is alive at any time,
    and the log accounts for the objects alive afterwards. *)
Lemma prepare_live o c w w' r :
  cache_inv w → prepare o c w = (w', r) →
  ∃ evs, log w' = log w ++ evs ∧
    always_le1 (dom (heap w)) evs ∧
    live_after (dom (heap w)) evs = dom (heap w').
Proof.
  intros Hinv Hrun.
  prepare_cases Hinv Hrun; simplify_eq; world_proj; flat_log;
    try (exists []; rewrite app_nil_r; split; [reflexivity|]);
    try (eexists; split; [reflexivity|]);
    (split; [ cbn [always_le1 live_step]; dom_norm; split_and!; try done; size_le1
            | cbn [live_after live_step]; dom_norm; set_solver ]).
Qed.

Ltac heap_none :=
  match goal with
  | Hlt : (?h < ?nh)%nat |- _ !! ?h = None =>
      assert (h ≠ nh) by lia; apply not_elem_of_dom; dom_norm; set_solver
  end.

Lemma other_variant_trace o b w1 w2 r h0 mv :
  cache_inv w1 →
  loaded_pipeline_config w1 !! "pipeline" = Some (VPipe h0) →
  loaded_pipeline_config w1 !! "model_version" = Some (VStr mv) →
  mv ≠ variant b →
  prepare o b w1 = (w2, r) →
  ∃ pre post, log w2 = log w1 ++ pre ++ EvRelease h0 :: post ∧
    reconstructions pre = 0%nat ∧ reconstructions post = 1%nat ∧
    heap w2 !! h0 = None.
Proof.
  intros Hinv Hp0 Hmv0 Hne Hrun.
  prepare_cases Hinv Hrun; simplify_eq; world_proj; flat_log;
    try (apply hit_b_true in Hhit as (_ & _ & _ & _ & _ & ?); congruence);
    try (apply bool_decide_eq_true in Hsame; congruence);
    (eexists [_], _; split; [reflexivity|]; split_and!; [reflexivity..|heap_none]).
Qed.

Lemma same_variant_trace o b w1 w2 r h0 :
  cache_inv w1 →
  loaded_pipeline_config w1 !! "pipeline" = Some (VPipe h0) →
  loaded_pipeline_config w1 !! "model_version" = Some (VStr (variant b)) →
  ¬ records b (loaded_pipeline_config w1) →
  prepare o b w1 = (w2, r) →
  ∃ evs, log w2 = log w1 ++ evs ∧
    Forall (λ e, is_adapter_event h0 e = true) evs ∧
    loaded_pipeline_config w2 !! "pipeline" = Some (VPipe h0) ∧
    dom (heap w2) = {[h0]} ∧
    (delete_adapters_raises o = None → load_loras_raises o = None →
     r = Ok (VPipe h0) ∧
     evs = [EvDeleteAdapters h0 ["realism"; "anti_blur"];
            EvLoadLoras h0 (loras_of b)]).
Proof.
  intros Hinv Hp0 Hmv0 Hne Hrun.
  prepare_cases Hinv Hrun; simplify_eq; world_proj; flat_log;
    try (apply bool_decide_eq_false in Hsame; congruence).
  - (* hit: excluded, the recorded flags differ *)
    apply hit_b_true in Hhit as (_ & ? & ? & ? & ? & ?). simplify_eq.
    destruct Hne. unfold records. split_and!; congruence.
  - eexists. split; [reflexivity|]. split_and!.
    + repeat constructor; simpl; by rewrite bool_decide_eq_true_2.
    + solve_lookup.
    + dom_norm. done.
    + intros; simplify_eq.
  - eexists. split; [reflexivity|]. split_and!.
    + repeat constructor; simpl; by rewrite bool_decide_eq_true_2.
    + solve_lookup.
    + dom_norm. done.
    + intros; simplify_eq.
  - eexists. split; [reflexivity|]. split_and!.
    + repeat constructor; simpl; by rewrite bool_decide_eq_true_2.
    + solve_lookup.
    + dom_norm. done.
    + intros _ _. split; reflexivity.
Qed.

Lemma adapter_events_no_reconstruction h evs :
  Forall (λ e, is_adapter_event h e = true) evs → reconstructions evs = 0%nat.
Proof.
  unfold reconstructions. induction 1 as [|e evs He _ IH]; [done|].
  rewrite filter_cons_False; [exact IH|].
  destruct e; simpl in *; congruence.
Qed.

(** What is left after a failed switch to another variant: the constructor
    raised after line 103 removed the key. *)
Lemma failed_switch_key_absent o b w w' r h0 mv msg :
  cache_inv w →
  loaded_pipeline_config w !! "pipeline" = Some (VPipe h0) →
  loaded_pipeline_config w !! "model_version" = Some (VStr mv) →
  mv ≠ variant b →
  ctor_raises o = Some msg →
  prepare o b w = (w', r) →
  r = Raise (ExternalError msg) ∧
  loaded_pipeline_config w' !! "pipeline" = None ∧ heap w' = ∅.
Proof.
  intros Hinv Hp0 Hmv0 Hne Hfail Hrun.
  prepare_cases Hinv Hrun; simplify_eq; world_proj;
    try (apply hit_b_true in Hhit as (_ & _ & _ & _ & _ & ?); congruence);
    try (apply bool_decide_eq_true in Hsame; congruence).
  split_and!; [done| by rewrite lookup_delete_eq | by rewrite delete_singleton_eq].
Qed.

(** A constructor failure while nothing was resident leaves the cache
    empty and well formed, so the next call builds from scratch. *)
Lemma failed_first_build_retry o b w w' r msg :
  cache_inv w →
  loaded_pipeline_config w !! "pipeline" = Some VNone →
  ctor_raises o = Some msg →
  prepare o b w = (w', r) →
  r = Raise (ExternalError msg) ∧ cache_inv w' ∧
  loaded_pipeline_config w' !! "pipeline" = Some VNone.
Proof.
  intros Hinv Hp0 Hfail Hrun.
  prepare_cases Hinv Hrun; simplify_eq; world_proj.
  split_and!; [done| |solve_lookup].
  unfold cache_inv; world_proj. split_and!; [solve_lookup..|].
  left. split; [solve_lookup|done].
Qed.

(** C1 (the code departs from the claim).  A pipeline built without 8-bit
    quantization is resident; the next request asks for the same variant with
    quantization on.  [prepare_pipeline] calls no constructor and releases
    nothing: it only reloads the adapters and returns the same object, still
    the unquantized one, while the dictionary now records
    [quantize_8bit = True]. *)
Theorem quantize_flag_change_reuses_instance :
  let w1 := (prepare quiet plain (initial_world None)).1 in
  let s2 := prepare quiet plain_8bit w1 in
  (prepare quiet plain (initial_world None)).2 = Ok (VPipe 0%nat) ∧
  s2.2 = Ok (VPipe 0%nat) ∧
  log s2.1 = log w1 ++ [EvDeleteAdapters 0 ["realism"; "anti_blur"];
                        EvLoadLoras 0 []] ∧
  quantize_8bit_of <$> heap s2.1 !! 0%nat = Some false ∧
  loaded_pipeline_config s2.1 !! "quantize_8bit" = Some (VBool true).
Proof. vm_compute. repeat split. Qed.

(** The same for every state and every pair of requests on one variant
    whose quantization or offload flags differ: no constructor call, no
    release, the resident object is returned. *)
Lemma flag_change_never_rebuilds o1 o2 a b w w1 p1 w2 r2 :
  cache_inv w →
  variant a = variant b →
  (quantized a, offload a) ≠ (quantized b, offload b) →
  prepare o1 a w = (w1, Ok p1) → prepare o2 b w1 = (w2, r2) →
  ∃ h0 evs, p1 = VPipe h0 ∧ log w2 = log w1 ++ evs ∧
    reconstructions evs = 0%nat ∧
    Forall (λ e, is_adapter_event h0 e = true) evs ∧
    loaded_pipeline_config w2 !! "pipeline" = Some (VPipe h0).
Proof.
  intros Hinv Hv Hflags Hrun1 Hrun2.
  destruct (prepare_ok_inv _ _ _ _ _ Hinv Hrun1)
    as (Hinv1 & Hrec & h0 & -> & Hp1).
  destruct Hrec as (R1 & R2 & R3 & R4 & R5).
  destruct (same_variant_trace o2 b w1 w2 r2 h0) as (evs & Hlog & Hall & Hp2 & _);
    try done.
  { congruence. }
  { intros (_ & _ & Q3 & Q4 & _). apply Hflags. congruence. }
  exists h0, evs. split_and!; try done.
  by eapply adapter_events_no_reconstruction.
Qed.

(** C2 (the code departs from the claim).  With [aes_stage2] resident, a
    request for [sim_stage1] whose constructor raises leaves the dictionary
    without the key ['pipeline']; the retry with the same configuration does
    not rebuild, it raises [KeyError] at line 83 and changes nothing. *)
Theorem failed_switch_then_retry_raises_KeyError :
  let w1 := (prepare quiet plain (initial_world None)).1 in
  let s2 := prepare weights_missing other_stage w1 in
  let s3 := prepare quiet other_stage s2.1 in
  s2.2 = Raise (ExternalError "weights missing") ∧
  loaded_pipeline_config s2.1 !! "pipeline" = None ∧
  heap s2.1 = ∅ ∧
  s3.2 = Raise (KeyError "pipeline") ∧
  s3.1 = s2.1 ∧
  reconstructions (drop (length (log s2.1)) (log s3.1)) = 0%nat.
Proof. vm_compute. repeat split. Qed.

(** C3.  Calling [prepare] twice with one configuration: after a first
    call that succeeded, the second call returns the same object and leaves
    the whole state, log included, as it was (no constructor call, no adapter
    load); the first call made at most one constructor call, and exactly one
    when nothing was resident before it. *)
Theorem prepare_twice_one_reconstruction o1 o2 c w w1 p :
  cache_inv w →
  prepare o1 c w = (w1, Ok p) →
  prepare o2 c w1 = (w1, Ok p) ∧
  ∃ evs, log w1 = log w ++ evs ∧ (reconstructions evs ≤ 1)%nat ∧
    (loaded_pipeline_config w !! "pipeline" = Some VNone →
     reconstructions evs = 1%nat).
Proof.
  intros Hinv Hrun.
  destruct (prepare_ok_inv _ _ _ _ _ Hinv Hrun) as (Hinv1 & Hrec & h0 & -> & Hp1).
  split; [by apply prepare_hit|]. clear Hinv1 Hrec Hp1.
  prepare_cases Hinv Hrun; simplify_eq; world_proj; flat_log.
  - eexists. split; [reflexivity|]. split; [vm_compute; lia|]. intros _. reflexivity.
  - exists []. rewrite app_nil_r. split; [reflexivity|]. split; [vm_compute; lia|].
    intros ?; simplify_eq.
  - eexists. split; [reflexivity|]. split; [vm_compute; lia|].
    intros ?; simplify_eq.
  - eexists. split; [reflexivity|]. split; [vm_compute; lia|].
    intros ?; simplify_eq.
Qed.

Lemma prepare_twice_one_reconstruction_witness :
  let w := initial_world None in
  let w1 := (prepare quiet plain_8bit w).1 in
  prepare quiet plain_8bit w1 = (w1, Ok (VPipe 0%nat)) ∧
  ∃ evs, log w1 = log w ++ evs ∧ (reconstructions evs ≤ 1)%nat ∧
    (loaded_pipeline_config w !! "pipeline" = Some VNone →
     reconstructions evs = 1%nat).
Proof.
  apply (prepare_twice_one_reconstruction quiet quiet plain_8bit
           (initial_world None)).
  - apply cache_inv_initial.
  - vm_compute. reflexivity.
Defined.

(** C4.  When the second request names another variant, the object the
    first request returned is released before the constructor is called
    again, it is gone from the heap afterwards, and after every prefix of the
    two calls' trace at most one pipeline object is alive.  (Holds for any
    two configurations with different variants, in particular those that
    differ in nothing else.) *)
Theorem switch_variant_releases_before_build o1 o2 a b w w1 p1 w2 r2 :
  cache_inv w →
  variant a ≠ variant b →
  prepare o1 a w = (w1, Ok p1) →
  prepare o2 b w1 = (w2, r2) →
  ∃ h1 evs1 pre post,
    p1 = VPipe h1 ∧ log w1 = log w ++ evs1 ∧
    log w2 = log w1 ++ pre ++ EvRelease h1 :: post ∧
    reconstructions pre = 0%nat ∧ reconstructions post = 1%nat ∧
    heap w2 !! h1 = None ∧
    ∀ t, t `prefix_of` evs1 ++ pre ++ EvRelease h1 :: post →
         (size (live_after (dom (heap w)) t) ≤ 1)%nat.
Proof.
  intros Hinv Hne Hrun1 Hrun2.
  destruct (prepare_ok_inv _ _ _ _ _ Hinv Hrun1)
    as (Hinv1 & Hrec & h1 & -> & Hp1).
  destruct Hrec as (_ & _ & _ & _ & R5).
  destruct (other_variant_trace o2 b w1 w2 r2 h1 (variant a))
    as (pre & post & Hlog2 & Hpre & Hpost & Hgone); try done.
  destruct (prepare_live _ _ _ _ _ Hinv Hrun1) as (evs1 & Hlog1 & Hle1 & Hdom1).
  destruct (prepare_live _ _ _ _ _ Hinv1 Hrun2) as (evs2 & Hlog2' & Hle2 & _).
  rewrite Hlog2 in Hlog2'. apply app_inv_head in Hlog2'. subst evs2.
  exists h1, evs1, pre, post. split_and!; try done.
  apply always_le1_prefix, always_le1_app. split; [done|].
  by rewrite Hdom1.
Qed.

Lemma switch_variant_releases_before_build_witness :
  let w := initial_world None in
  let w1 := (prepare quiet plain w).1 in
  let w2 := (prepare quiet other_stage w1).1 in
  ∃ h1 evs1 pre post,
    VPipe 0%nat = VPipe h1 ∧ log w1 = log w ++ evs1 ∧
    log w2 = log w1 ++ pre ++ EvRelease h1 :: post ∧
    reconstructions pre = 0%nat ∧ reconstructions post = 1%nat ∧
    heap w2 !! h1 = None ∧
    ∀ t, t `prefix_of` evs1 ++ pre ++ EvRelease h1 :: post →
         (size (live_after (dom (heap w)) t) ≤ 1)%nat.
Proof.
  apply (switch_variant_releases_before_build quiet quiet plain other_stage
           (initial_world None) _ _ _ (prepare quiet other_stage
              (prepare quiet plain (initial_world None)).1).2).
  - apply cache_inv_initial.
  - vm_compute. discriminate.
  - vm_compute. reflexivity.
  - vm_compute. reflexivity.
Defined.

(** C5.  Two requests that differ only in the enabled add-ons: the second
    call makes no constructor call and releases nothing; everything it does
    is an adapter operation on the object the first call returned, which
    stays the one resident object, and when the adapter calls succeed that
    object is returned after [delete_adapters] and [load_loras]. *)
Theorem addon_swap_reuses_instance o1 o2 a b w w1 p1 w2 r2 :
  cache_inv w →
  variant a = variant b → quantized a = quantized b → offload a = offload b →
  (realism a, anti_blur a) ≠ (realism b, anti_blur b) →
  prepare o1 a w = (w1, Ok p1) →
  prepare o2 b w1 = (w2, r2) →
  ∃ h0 evs, p1 = VPipe h0 ∧ log w2 = log w1 ++ evs ∧
    reconstructions evs = 0%nat ∧
    Forall (λ e, is_adapter_event h0 e = true) evs ∧
    loaded_pipeline_config w2 !! "pipeline" = Some (VPipe h0) ∧
    dom (heap w2) = {[h0]} ∧
    (delete_adapters_raises o2 = None → load_loras_raises o2 = None →
     r2 = Ok (VPipe h0) ∧
     evs = [EvDeleteAdapters h0 ["realism"; "anti_blur"];
            EvLoadLoras h0 (loras_of b)]).
Proof.
  intros Hinv Hv Hq Hoff Haddons Hrun1 Hrun2.
  destruct (prepare_ok_inv _ _ _ _ _ Hinv Hrun1)
    as (Hinv1 & Hrec & h0 & -> & Hp1).
  destruct Hrec as (R1 & R2 & R3 & R4 & R5).
  destruct (same_variant_trace o2 b w1 w2 r2 h0)
    as (evs & Hlog & Hall & Hp2 & Hdom & Hok); try done.
  { congruence. }
  { intros (Q1 & Q2 & _). apply Haddons. congruence. }
  exists h0, evs. split_and!; try done.
  by eapply adapter_events_no_reconstruction.
Qed.

Lemma addon_swap_reuses_instance_witness :
  let w := initial_world None in
  let w1 := (prepare quiet plain w).1 in
  let s2 := prepare quiet plain_realism w1 in
  ∃ h0 evs, VPipe 0%nat = VPipe h0 ∧ log s2.1 = log w1 ++ evs ∧
    reconstructions evs = 0%nat ∧
    Forall (λ e, is_adapter_event h0 e = true) evs ∧
    loaded_pipeline_config s2.1 !! "pipeline" = Some (VPipe h0) ∧
    dom (heap s2.1) = {[h0]} ∧
    (delete_adapters_raises quiet = None → load_loras_raises quiet = None →
     s2.2 = Ok (VPipe h0) ∧
     evs = [EvDeleteAdapters h0 ["realism"; "anti_blur"];
            EvLoadLoras h0 (loras_of plain_realism)]).
Proof.
  apply (addon_swap_reuses_instance quiet quiet plain plain_realism
           (initial_world None)).
  - apply cache_inv_initial.
  - reflexivity.
  - reflexivity.
  - reflexivity.
  - vm_compute. discriminate.
  - vm_compute. reflexivity.
  - vm_compute. reflexivity.
Defined.

(** *** [download_models] and the calls after [prepare_pipeline] leave the
    cache alone *)

Lemma download_models_frame o w w0 r :
  download_models o w = (w0, r) →
  loaded_pipeline_config w0 = loaded_pipeline_config w ∧
  heap w0 = heap w ∧ next_handle w0 = next_handle w ∧
  results_dir w0 = results_dir w.
Proof.
  unfold download_models, snapshot_download, try_except.
  destruct w as [m md hp nh rd lg]. simpl.
  destruct md; [intros [= <- <-]; done|].
  destruct (snapshot_infu_raises o), (snapshot_flux_raises o);
    cbv [mbind M_bind mret M_ret emit modify raise]; simpl;
    intros [= <- <-]; done.
Qed.

Lemma download_models_inv o w w0 r :
  cache_inv w → download_models o w = (w0, r) → cache_inv w0.
Proof.
  intros Hinv Hrun.
  destruct (download_models_frame _ _ _ _ Hrun) as (Hc & Hh & Hn & _).
  unfold cache_inv in *. rewrite Hc, Hh, Hn. exact Hinv.
Qed.

Lemma draw_seed_nonzero o seed : seed ≠ 0 → draw_seed o seed = seed.
Proof.
  intros H. unfold draw_seed. destruct (Z.eqb_spec seed 0); congruence.
Qed.

Lemma draw_seed_zero o :
  draw_seed o 0 = torch_seed o `mod` 2 ^ 32 ∧ 0 ≤ draw_seed o 0 < 2 ^ 32.
Proof.
  unfold draw_seed. simpl.
  change 4294967295 with (Z.ones 32). rewrite Z.land_ones by lia.
  split; [reflexivity|]. apply Z.mod_pos_bound. lia.
Qed.

Lemma str_inj : Inj (=) (=) str.
Proof.
  intros x y H. unfold str in H.
  assert (Inj (=) (=) lit) as Hlit.
  { intros s. induction s as [|a s IH]; intros [|b t]; simpl; try done.
    intros [= Hab Hst]. f_equal; [|by apply IH].
    rewrite <- (Ascii.ascii_N_embedding a), <- (Ascii.ascii_N_embedding b).
    by rewrite Hab. }
  by apply Hlit, (inj pretty) in H.
Qed.

Lemma save_image_config ua o image p s w w' r :
  save_image ua o image p s w = (w', r) →
  loaded_pipeline_config w' = loaded_pipeline_config w ∧ heap w' = heap w.
Proof.
  unfold save_image, makedirs, listdir_len, image_save.
  destruct w as [m md hp nh rd lg].
  cbv [mbind M_bind mret M_ret emit modify raise results_dir
       loaded_pipeline_config models_downloaded heap next_handle log].
  destruct rd as [d|]; destruct (save_raises o);
    repeat match goal with
           | |- context [match entry_of ?x with _ => _ end] =>
               destruct (entry_of x)
           end;
    intros [= <- <-]; done.
Qed.

Lemma call_pipeline_config o p args w w' r :
  call_pipeline o p args w = (w', r) →
  loaded_pipeline_config w' = loaded_pipeline_config w ∧ heap w' = heap w.
Proof.
  unfold call_pipeline. destruct w as [m md hp nh rd lg].
  destruct p; try (intros [= <- <-]; done).
  cbv [mbind M_bind mret M_ret emit modify raise heap].
  destruct (hp !! h); [|intros [= <- <-]; done].
  destruct (call_result o p args); intros [= <- <-]; done.
Qed.

(** Once [download_models] and [prepare_pipeline] have returned, the
    request returns normally, whatever the pipeline call and the saving do,
    reports [str] of the seed it used, and leaves the dictionary and the live
    objects as [prepare_pipeline] left them. *)
Lemma request_after_prepare ua i o seed c w w0 w1 p :
  download_models o w = (w0, Ok tt) →
  prepare o c w0 = (w1, Ok p) →
  ∃ w' u, request ua i o seed c w = (w', Ok (u, str (draw_seed o seed))) ∧
    loaded_pipeline_config w' = loaded_pipeline_config w1 ∧
    heap w' = heap w1.
Proof.
  intros Hd Hp. unfold request, generate_image.
  erewrite bind_ok by exact Hd. erewrite bind_ok by exact Hp.
  unfold try_except.
  fold (request_args i o seed c).
  destruct (call_pipeline o p (request_args i o seed c) w1) as [wa [image|e]] eqn:Hcall.
  - destruct (call_pipeline_config _ _ _ _ _ _ Hcall) as [Hc1 Hh1].
    erewrite bind_ok by exact Hcall.
    destruct (save_image ua o image (in_prompt i) (draw_seed o seed) wa)
      as [wb [path|e]] eqn:Hsave.
    + destruct (save_image_config _ _ _ _ _ _ _ _ Hsave) as [Hc2 Hh2].
      erewrite bind_ok by exact Hsave.
      eexists _, _. split; [reflexivity|]. split; congruence.
    + destruct (save_image_config _ _ _ _ _ _ _ _ Hsave) as [Hc2 Hh2].
      erewrite bind_raise by exact Hsave.
      eexists _, _. split; [reflexivity|].
      cbv [mbind M_bind mret M_ret emit modify]. simpl. split; congruence.
  - destruct (call_pipeline_config _ _ _ _ _ _ Hcall) as [Hc1 Hh1].
    erewrite bind_raise by exact Hcall.
    eexists _, _. split; [reflexivity|].
    cbv [mbind M_bind mret M_ret emit modify]. simpl. split; congruence.
Qed.

Lemma prepare_results_dir o c w w' r :
  cache_inv w → prepare o c w = (w', r) → results_dir w' = results_dir w.
Proof.
  intros Hinv Hrun.
  prepare_cases Hinv Hrun; simplify_eq; done.
Qed.

(** C6, as the code has it.  A request that gets past [prepare_pipeline]
    returns normally and reports the decimal text of the seed it used.  A
    nonzero seed is used and reported as given.  For seed 0 the value drawn
    by [torch.seed()] is reduced to its low 32 bits: the reported seed lies in
    [0, 2^32) and is 0 exactly when the drawn value is a multiple of 2^32.
    The dictionary after the request is the one [prepare_pipeline] left: the
    seed is stored nowhere. *)
Theorem reported_seed ua i o seed c w w0 w1 p :
  download_models o w = (w0, Ok tt) →
  prepare o c w0 = (w1, Ok p) →
  ∃ w' u s, request ua i o seed c w = (w', Ok (u, s)) ∧
    loaded_pipeline_config w' = loaded_pipeline_config w1 ∧
    (seed ≠ 0 → s = str seed) ∧
    (seed = 0 →
       s = str (torch_seed o `mod` 2 ^ 32) ∧
       (s = str 0 ↔ torch_seed o `mod` 2 ^ 32 = 0)).
Proof.
  intros Hd Hp.
  destruct (request_after_prepare ua i o seed c w w0 w1 p Hd Hp)
    as (w' & u & Hrun & Hcfg & _).
  exists w', u, (str (draw_seed o seed)). split_and!; try done.
  - intros Hne. by rewrite draw_seed_nonzero.
  - intros ->. destruct (draw_seed_zero o) as [-> _].
    split; [done|]. split; [apply str_inj | by intros ->].
Qed.

Lemma reported_seed_witness :
  let w := initial_world None in
  let w0 := (download_models quiet w).1 in
  let w1 := (prepare quiet plain w0).1 in
  ∃ w' u s, request ascii_only portrait quiet 7 plain w = (w', Ok (u, s)) ∧
    loaded_pipeline_config w' = loaded_pipeline_config w1 ∧
    (7 ≠ 0 → s = str 7) ∧
    (7 = 0 →
       s = str (torch_seed quiet `mod` 2 ^ 32) ∧
       (s = str 0 ↔ torch_seed quiet `mod` 2 ^ 32 = 0)).
Proof.
  apply (reported_seed ascii_only portrait quiet 7 plain (initial_world None)
           (download_models quiet (initial_world None)).1
           (prepare quiet plain (download_models quiet (initial_world None)).1).1
           (VPipe 0%nat)).
  - vm_compute. reflexivity.
  - vm_compute. reflexivity.
Defined.

(** C6 as stated fails: when [torch.seed()] draws 2^32 the seed used for a
    request with seed 0 is 0, and ["0"] is what the request reports. *)
Lemma zero_seed_can_be_reported :
  ¬ (∀ o w w' u s,
       request ascii_only portrait o 0 plain w = (w', Ok (u, s)) → s ≠ str 0).
Proof.
  intros H.
  apply (H seed_wraps_to_zero (initial_world None)
           (request ascii_only portrait seed_wraps_to_zero 0 plain
              (initial_world None)).1
           (mkGrUpdate (Some (MkImage 0))
              (Some (lit "Generated Image, seed=0, saved to ./results/00000_Portrait__4K__high_quality__cinematic_seed0.png")))
           (str 0)).
  - vm_compute. reflexivity.
  - reflexivity.
Qed.

Lemma call_pipeline_raises o h obj args msg w :
  heap w !! h = Some obj → call_result o obj args = inr msg →
  call_pipeline o (VPipe h) args w
  = (mkWorld (loaded_pipeline_config w) (models_downloaded w) (heap w)
             (next_handle w) (results_dir w) (log w ++ [EvInfer h args]),
     Raise (ExternalError msg)).
Proof.
  intros Hobj Hcall. unfold call_pipeline. rewrite Hobj.
  cbv [mbind M_bind mret M_ret emit modify raise]. by rewrite Hcall.
Qed.

(** What a request does when its pipeline call raises (lines 189-192). *)
Lemma failed_inference_frame ua i o seed c w w0 w1 h obj msg :
  cache_inv w →
  download_models o w = (w0, Ok tt) →
  prepare o c w0 = (w1, Ok (VPipe h)) →
  heap w1 !! h = Some obj →
  call_result o obj (request_args i o seed c) = inr msg →
  ∃ w',
    request ua i o seed c w
      = (w', Ok (mkGrUpdate None None, str (draw_seed o seed))) ∧
    loaded_pipeline_config w' = loaded_pipeline_config w1 ∧
    heap w' = heap w1 ∧
    results_dir w' = results_dir w ∧
    log w' = log w1 ++ [EvInfer h (request_args i o seed c); EvPrint msg;
                        EvGrError ("An error occurred: " +:+ msg)] ∧
    ∀ o2, prepare o2 c w' = (w', Ok (VPipe h)).
Proof.
  intros Hinv Hd Hp Hobj Hcall.
  pose proof (download_models_inv _ _ _ _ Hinv Hd) as Hinv0.
  destruct (prepare_ok_inv _ _ _ _ _ Hinv0 Hp) as (Hinv1 & Hrec & h' & [= <-] & Hp1).
  destruct (download_models_frame _ _ _ _ Hd) as (_ & _ & _ & Hrd0).
  pose proof (prepare_results_dir _ _ _ _ _ Hinv0 Hp) as Hrd1.
  unfold request, generate_image.
  erewrite bind_ok by exact Hd. erewrite bind_ok by exact Hp.
  fold (request_args i o seed c).
  unfold try_except.
  erewrite bind_raise by (by apply (call_pipeline_raises o h obj)).
  eexists. split; [reflexivity|]. simpl.
  split_and!; try done; try congruence.
  - by rewrite <- !app_assoc.
  - intros o2. apply prepare_hit; simpl; done.
Qed.

(** C7.  The pipeline call of a request raises.  Dictionary and live objects
    stay as [prepare_pipeline] left them, the log gained the call and the two
    reports only, and a following [prepare] with the same configuration is a
    hit: same object, state unchanged.  But the caller receives no error:
    line 191 constructs [gr.Error] without raising it, so the request returns
    normally with an empty update and the seed text.  The message reaches the
    console and the discarded object only, and the value returned is the same
    whatever the pipeline raised. *)
Theorem inference_failure_not_reported ua i o seed c w w0 w1 h obj msg :
  cache_inv w →
  download_models o w = (w0, Ok tt) →
  prepare o c w0 = (w1, Ok (VPipe h)) →
  heap w1 !! h = Some obj →
  call_result o obj (request_args i o seed c) = inr msg →
  ∃ w',
    request ua i o seed c w
      = (w', Ok (mkGrUpdate None None, str (draw_seed o seed))) ∧
    loaded_pipeline_config w' = loaded_pipeline_config w1 ∧
    heap w' = heap w1 ∧
    results_dir w' = results_dir w ∧
    log w' = log w1 ++ [EvInfer h (request_args i o seed c); EvPrint msg;
                        EvGrError ("An error occurred: " +:+ msg)] ∧
    (∀ o2, prepare o2 c w' = (w', Ok (VPipe h))) ∧
    ∀ f msg2, f obj (request_args i o seed c) = inr msg2 →
      (request ua i (with_call_result o f) seed c w).2
      = (request ua i o seed c w).2.
Proof.
  intros Hinv Hd Hprep Hobj Hcall.
  destruct (failed_inference_frame ua i o seed c w w0 w1 h obj msg
              Hinv Hd Hprep Hobj Hcall)
    as (w' & Hrun & Hcfg & Hheap & Hdir & Hlog & Hhit).
  exists w'. split_and!; try done.
  intros f msg2 Hf.
  destruct (failed_inference_frame ua i (with_call_result o f) seed c w w0 w1
              h obj msg2 Hinv Hd Hprep Hobj Hf)
    as (w2 & Hrun2 & _).
  rewrite Hrun, Hrun2. reflexivity.
Qed.

Lemma inference_failure_not_reported_witness :
  let w := initial_world None in
  let w0 := (download_models out_of_memory w).1 in
  let w1 := (prepare out_of_memory plain w0).1 in
  ∃ w',
    request ascii_only portrait out_of_memory 7 plain w
      = (w', Ok (mkGrUpdate None None, str (draw_seed out_of_memory 7))) ∧
    loaded_pipeline_config w' = loaded_pipeline_config w1 ∧
    heap w' = heap w1 ∧
    results_dir w' = results_dir w ∧
    log w' = log w1 ++ [EvInfer 0 (request_args portrait out_of_memory 7 plain);
                        EvPrint "CUDA out of memory";
                        EvGrError ("An error occurred: " +:+ "CUDA out of memory")] ∧
    (∀ o2, prepare o2 plain w' = (w', Ok (VPipe 0%nat))) ∧
    ∀ f msg2,
      f (mkPipeline "aes_stage2" false false [])
        (request_args portrait out_of_memory 7 plain) = inr msg2 →
      (request ascii_only portrait (with_call_result out_of_memory f) 7 plain w).2
      = (request ascii_only portrait out_of_memory 7 plain w).2.
Proof.
  apply (inference_failure_not_reported ascii_only portrait out_of_memory 7
           plain (initial_world None)
           (download_models out_of_memory (initial_world None)).1
           (prepare out_of_memory plain
              (download_models out_of_memory (initial_world None)).1).1
           0%nat (mkPipeline "aes_stage2" false false [])).
  - apply cache_inv_initial.
  - vm_compute. reflexivity.
  - vm_compute. reflexivity.
  - vm_compute. reflexivity.
  - reflexivity.
Defined.

(** ** Decimal text *)

Lemma lit_app s t : lit (s +:+ t) = lit s ++ lit t.
Proof.
  induction s as [|a s IH]; [done|].
  change (Ascii.N_of_ascii a :: lit (s +:+ t)
          = Ascii.N_of_ascii a :: (lit s ++ lit t)).
  by rewrite IH.
Qed.

Lemma pretty_N_char_code d :
  (d < 10)%N → Ascii.N_of_ascii (pretty_N_char d) = (48 + d)%N.
Proof.
  intros H.
  assert (d = 0 ∨ d = 1 ∨ d = 2 ∨ d = 3 ∨ d = 4 ∨ d = 5 ∨ d = 6 ∨ d = 7
          ∨ d = 8 ∨ d = 9)%N as Hd by lia.
  repeat (destruct Hd as [-> | Hd]; [reflexivity|]). by subst.
Qed.

Lemma pretty_N_go_app x s : pretty_N_go x s = pretty_N_go x "" +:+ s.
Proof.
  revert s. induction (N.lt_wf_0 x) as [x _ IH]; intros s.
  assert (x = 0 ∨ 0 < x)%N as [-> | Hpos] by lia.
  - by rewrite !pretty_N_go_0.
  - rewrite (pretty_N_go_step x s), (pretty_N_go_step x "") by done.
    assert (x `div` 10 < x)%N as Hlt by (by apply N.div_lt).
    rewrite (IH _ Hlt (String _ s)), (IH _ Hlt (String _ "")).
    generalize (pretty_N_go (x `div` 10) ""). intros t.
    induction t as [|a t IHt]; [done|].
    change (String a (t +:+ String (pretty_N_char (x `mod` 10)) s)
            = String a ((t +:+ String (pretty_N_char (x `mod` 10)) "") +:+ s)).
    by f_equal.
Qed.

Lemma pretty_N_go_snoc x :
  (0 < x)%N →
  lit (pretty_N_go x "")
  = lit (pretty_N_go (x `div` 10) "") ++ [(48 + x `mod` 10)%N].
Proof.
  intros Hpos. rewrite pretty_N_go_step by done.
  rewrite pretty_N_go_app, lit_app. simpl.
  rewrite pretty_N_char_code; [done|]. by apply N.mod_lt.
Qed.

Lemma pretty_N_go_digits x : Forall (λ c, is_digit c = true) (lit (pretty_N_go x "")).
Proof.
  induction (N.lt_wf_0 x) as [x _ IH].
  assert (x = 0 ∨ 0 < x)%N as [-> | Hpos] by lia; [constructor|].
  rewrite pretty_N_go_snoc by done. apply Forall_app. split.
  - apply IH. by apply N.div_lt.
  - repeat constructor. unfold is_digit.
    pose proof (N.mod_lt x 10 ltac:(lia)). apply andb_true_iff.
    set (r := (x `mod` 10)%N) in *. clearbody r.
    split; apply N.leb_le; lia.
Qed.

Lemma int_of_digits_snoc s c :
  int_of_digits (s ++ [c]) = (int_of_digits s * 10 + (c - 48))%N.
Proof. unfold int_of_digits. by rewrite fold_left_app. Qed.

Lemma pretty_N_go_value x : int_of_digits (lit (pretty_N_go x "")) = x.
Proof.
  induction (N.lt_wf_0 x) as [x _ IH].
  assert (x = 0 ∨ 0 < x)%N as [-> | Hpos] by lia; [done|].
  rewrite pretty_N_go_snoc, int_of_digits_snoc by done.
  rewrite IH by (by apply N.div_lt).
  pose proof (N.div_mod x 10 ltac:(lia)) as Hdm.
  pose proof (N.mod_lt x 10 ltac:(lia)) as Hm.
  set (q := (x `div` 10)%N) in *. set (r := (x `mod` 10)%N) in *.
  clearbody q r. lia.
Qed.

Lemma pretty_N_go_length x k :
  (length (lit (pretty_N_go x "")) ≤ k)%nat ↔ (x < 10 ^ N.of_nat k)%N.
Proof.
  revert x. induction k as [|k IH]; intros x.
  - assert (x = 0 ∨ 0 < x)%N as [-> | Hpos] by lia; [simpl; split; [lia|done]|].
    rewrite pretty_N_go_snoc, length_app by done. simpl. split; lia.
  - assert (x = 0 ∨ 0 < x)%N as [-> | Hpos] by lia.
    + simpl. split; [|lia]. intros _. apply N.neq_0_lt_0, N.pow_nonzero. lia.
    + rewrite pretty_N_go_snoc, length_app by done. simpl.
      rewrite Nat2N.inj_succ, N.pow_succ_r'.
      specialize (IH (x `div` 10)%N).
      pose proof (N.div_mod x 10 ltac:(lia)) as Hdm. pose proof (N.mod_lt x 10 ltac:(lia)) as Hm.
      set (q := (x `div` 10)%N) in *. set (r := (x `mod` 10)%N) in *.
      set (P := (10 ^ N.of_nat k)%N) in *.
      clearbody q r P.
      split; intros H.
      * assert (q < P)%N by (apply IH; lia). lia.
      * assert (q < P)%N as H0 by lia.
        apply IH in H0. lia.
Qed.

Lemma lit_pretty_N (x : N) :
  lit (pretty x) = if decide (x = 0%N) then [48%N] else lit (pretty_N_go x "").
Proof. unfold pretty, pretty_N. by destruct (decide (x = 0%N)). Qed.

Lemma pretty_N_digits (x : N) : Forall (λ c, is_digit c = true) (lit (pretty x)).
Proof.
  rewrite lit_pretty_N. destruct (decide _); [by repeat constructor|].
  apply pretty_N_go_digits.
Qed.

Lemma pretty_N_value (x : N) : int_of_digits (lit (pretty x)) = x.
Proof.
  rewrite lit_pretty_N. destruct (decide _) as [->|]; [done|].
  apply pretty_N_go_value.
Qed.

Lemma pretty_N_length (x : N) k :
  (0 < k)%nat →
  (length (lit (pretty x)) ≤ k)%nat ↔ (x < 10 ^ N.of_nat k)%N.
Proof.
  intros Hk. rewrite lit_pretty_N. destruct (decide _) as [->|].
  - simpl. split; [|lia]. intros _. apply N.neq_0_lt_0, N.pow_nonzero. lia.
  - apply pretty_N_go_length.
Qed.

Lemma pretty_N_nonempty (x : N) : lit (pretty x) ≠ [].
Proof.
  rewrite lit_pretty_N. destruct (decide _); [done|].
  rewrite pretty_N_go_snoc by lia. by destruct (lit _).
Qed.

(** *** [f"{index:05d}"] *)

Lemma format_05d_digits index : Forall (λ c, is_digit c = true) (format_05d index).
Proof.
  unfold format_05d. apply Forall_app. split.
  - apply Forall_replicate. reflexivity.
  - apply (pretty_N_digits (N.of_nat index)).
Qed.

Lemma int_of_digits_zeros k s :
  int_of_digits (replicate k 48%N ++ s) = int_of_digits s.
Proof.
  unfold int_of_digits. rewrite fold_left_app.
  replace (fold_left _ (replicate k 48%N) 0%N) with 0%N; [done|].
  induction k as [|k IH]; simpl; [done|]. exact IH.
Qed.

Lemma format_05d_value index : int_of_digits (format_05d index) = N.of_nat index.
Proof.
  unfold format_05d. rewrite int_of_digits_zeros.
  apply (pretty_N_value (N.of_nat index)).
Qed.

Lemma format_05d_length index :
  length (format_05d index) = Nat.max 5 (length (lit (pretty index))).
Proof. unfold format_05d. rewrite length_app, length_replicate. lia. Qed.

Lemma format_05d_five index :
  length (format_05d index) = 5%nat ↔ (N.of_nat index < 100000)%N.
Proof.
  rewrite format_05d_length.
  pose proof (pretty_N_length (N.of_nat index) 5 ltac:(lia)) as H.
  change (lit (pretty (N.of_nat index))) with (lit (pretty index)) in H.
  change (10 ^ N.of_nat 5)%N with 100000%N in H.
  rewrite <- H. lia.
Qed.

(** ** The prompt part of the file name *)

Lemma sanitize_char_allowed ua c :
  sanitize_char ua c = if allowed ua c then c else 95%N.
Proof.
  unfold sanitize_char, allowed. destruct (isalnum ua c); [done|]. simpl.
  destruct (N.eqb_spec c 95) as [->|H95]; [done|].
  destruct (N.eqb_spec c 45) as [->|H45]; [done|].
  rewrite bool_decide_eq_false_2; [done|].
  change (lit "_-") with [95%N; 45%N]. set_solver.
Qed.

Lemma prompt_name_spec ua prompt :
  prompt_name ua prompt = spec_sanitized_prefix ua prompt.
Proof.
  unfold prompt_name, spec_sanitized_prefix, replace_space. f_equal.
  rewrite map_map. apply map_ext. intros c.
  rewrite !sanitize_char_allowed.
  destruct (N.eqb_spec c 32) as [->|H]; [|done].
  unfold allowed, isalnum. reflexivity.
Qed.

Lemma lstrip_us_Forall (P : N → Prop) s : Forall P s → Forall P (lstrip_us s).
Proof.
  induction 1 as [|c s Hc Hs IH]; simpl; [constructor|].
  destruct (c =? 95)%N; [exact IH | by constructor].
Qed.

Lemma strip_us_Forall (P : N → Prop) s : Forall P s → Forall P (strip_us s).
Proof.
  intros H. unfold strip_us, rstrip_us.
  apply Forall_rev, lstrip_us_Forall, Forall_rev, lstrip_us_Forall, H.
Qed.

Lemma lstrip_us_length s : (length (lstrip_us s) ≤ length s)%nat.
Proof.
  induction s as [|c s IH]; simpl; [lia|].
  destruct (c =? 95)%N; simpl; lia.
Qed.

Lemma strip_us_length s : (length (strip_us s) ≤ length s)%nat.
Proof.
  unfold strip_us, rstrip_us. rewrite length_rev.
  etrans; [apply lstrip_us_length|]. rewrite length_rev.
  apply lstrip_us_length.
Qed.

Lemma lstrip_us_head s : head (lstrip_us s) ≠ Some 95%N.
Proof.
  induction s as [|c s IH]; simpl; [done|].
  destruct (N.eqb_spec c 95); [exact IH|]. simpl. congruence.
Qed.

Lemma lstrip_us_snoc s c :
  c ≠ 95%N → ∃ s', lstrip_us (s ++ [c]) = s' ++ [c].
Proof.
  intros Hc. induction s as [|a s IH]; simpl.
  - destruct (N.eqb_spec c 95); [done|]. by exists [].
  - destruct (N.eqb_spec a 95); [exact IH|]. by exists (a :: s).
Qed.

Lemma strip_us_head s : head (strip_us s) ≠ Some 95%N.
Proof.
  unfold strip_us, rstrip_us.
  pose proof (lstrip_us_head s) as H.
  destruct (lstrip_us s) as [|c t]; [done|].
  simpl in H. assert (c ≠ 95%N) as Hc by congruence.
  simpl. destruct (lstrip_us_snoc (rev t) c Hc) as [s' ->].
  rewrite rev_app_distr. simpl. congruence.
Qed.

Lemma strip_us_last s : last (strip_us s) ≠ Some 95%N.
Proof.
  unfold strip_us, rstrip_us.
  pose proof (lstrip_us_head (rev (lstrip_us s))) as H.
  destruct (lstrip_us (rev (lstrip_us s))) as [|c t]; [done|].
  simpl. by rewrite last_snoc.
Qed.

Lemma prompt_name_allowed ua prompt :
  Forall (λ c, allowed ua c = true) (prompt_name ua prompt).
Proof.
  unfold prompt_name. apply strip_us_Forall, Forall_map, Forall_map.
  apply Forall_forall. intros c _. simpl.
  rewrite sanitize_char_allowed.
  destruct (allowed ua (if (c =? 32)%N then 95%N else c)) eqn:H; [exact H|done].
Qed.

Lemma prompt_name_length ua prompt : (length (prompt_name ua prompt) ≤ 50)%nat.
Proof.
  unfold prompt_name. etrans; [apply strip_us_length|].
  unfold replace_space. rewrite !length_map, length_take. lia.
Qed.

Lemma leading_digits_app s t :
  Forall (λ c, is_digit c = true) s → head t ≠ None →
  (∀ c, head t = Some c → is_digit c = false) →
  leading_digits (s ++ t) = s.
Proof.
  intros Hs Hne Ht. induction Hs as [|c s Hc _ IH]; simpl.
  - destruct t as [|c t]; [done|]. simpl. by rewrite (Ht c).
  - by rewrite Hc, IH.
Qed.

(** The number a file name starts with is the index it was given. *)
Lemma seq_number_out_name ua index prompt seed :
  seq_number (out_name ua index prompt seed) = N.of_nat index.
Proof.
  unfold seq_number, out_name.
  rewrite leading_digits_app.
  - apply format_05d_value.
  - apply format_05d_digits.
  - done.
  - simpl. by intros c [= <-].
Qed.

(** C8, as the code has it.  The file name is the index in decimal, padded
    with zeros to at least five digits (exactly five while the index is below
    100000), then ['_'], the sanitized prompt prefix, ['_seed'], the seed in
    decimal and ['.png'].  The prompt prefix is what the spec's wording
    computes: at most 50 characters, each alphanumeric, ['_'] or ['-'], with no
    ['_'] at either end. *)
Theorem out_name_format ua index prompt seed :
  let seq := format_05d index in
  let prefix := prompt_name ua prompt in
  out_name ua index prompt seed
    = seq ++ lit "_" ++ prefix ++ lit "_seed" ++ str seed ++ lit ".png" ∧
  Forall (λ c, is_digit c = true) seq ∧
  int_of_digits seq = N.of_nat index ∧
  seq_number (out_name ua index prompt seed) = N.of_nat index ∧
  (5 ≤ length seq)%nat ∧
  (length seq = 5%nat ↔ (N.of_nat index < 100000)%N) ∧
  prefix = spec_sanitized_prefix ua prompt ∧
  (length prefix ≤ 50)%nat ∧
  Forall (λ c, allowed ua c = true) prefix ∧
  head prefix ≠ Some 95%N ∧ last prefix ≠ Some 95%N.
Proof.
  intros seq prefix. subst seq prefix. split_and!.
  - reflexivity.
  - apply format_05d_digits.
  - apply format_05d_value.
  - apply seq_number_out_name.
  - rewrite format_05d_length. lia.
  - apply format_05d_five.
  - apply prompt_name_spec.
  - apply prompt_name_length.
  - apply prompt_name_allowed.
  - apply strip_us_head.
  - apply strip_us_last.
Qed.

(** C8 as stated fails: in a directory that already holds 100000 entries
    the name starts with six digits, so its sixth character is a digit and not
    the ['_'] that would follow a five-digit sequence number. *)
Lemma sixth_digit_at_100000 :
  ¬ (∀ index prompt seed, ∃ seq rest,
       length seq = 5%nat ∧
       out_name ascii_only index prompt seed = seq ++ lit "_" ++ rest).
Proof.
  intros H.
  destruct (H one_hundred_thousand (lit "a") 7) as (seq & rest & Hlen & Heq).
  pose proof (format_05d_digits one_hundred_thousand) as Hdig.
  pose proof (format_05d_length one_hundred_thousand) as Hlen6.
  pose proof (format_05d_five one_hundred_thousand) as Hfive.
  unfold one_hundred_thousand in Hfive at 2. rewrite N2Nat.id in Hfive.
  assert (length (format_05d one_hundred_thousand) ≠ 5%nat) as Hne.
  { intros E. apply Hfive in E. lia. }
  unfold out_name in Heq.
  set (f := format_05d one_hundred_thousand) in *. clearbody f.
  assert (is_Some (f !! 5%nat)) as [d Hd] by (apply lookup_lt_is_Some; lia).
  assert ((f ++ lit "_" ++ prompt_name ascii_only (lit "a") ++ lit "_seed"
             ++ str 7 ++ lit ".png") !! 5%nat = Some d) as Hl
    by (by apply lookup_app_l_Some).
  rewrite Heq in Hl.
  rewrite lookup_app_r in Hl by lia. rewrite Hlen in Hl. simpl in Hl.
  injection Hl as <-.
  apply (Forall_lookup_1 _ _ _ _ Hdig) in Hd. discriminate.
Qed.

Example out_name_slash :
  out_name ascii_only 3 (lit "  a/b 'c' ") 42 = lit "00003_a_b__c_seed42.png".
Proof. vm_compute. reflexivity. Qed.

(** ** Saving into the results directory *)

Lemma is_digit_not_slash c : is_digit c = true → c ≠ 47%N.
Proof. intros H ->. discriminate. Qed.

Lemma allowed_not_slash ua c : allowed ua c = true → c ≠ 47%N.
Proof. intros H ->. discriminate. Qed.

Lemma lit_pretty_Z_chars (z : Z) :
  Forall (λ c, is_digit c = true ∨ c = 45%N) (lit (pretty z)).
Proof.
  assert (∀ x : N, Forall (λ c, is_digit c = true ∨ c = 45%N) (lit (pretty x))) as HN.
  { intros x. eapply Forall_impl; [apply pretty_N_digits|]. by left. }
  destruct z as [|p|p]; unfold pretty, pretty_Z.
  - constructor; [by left | constructor].
  - apply (HN (N.pos p)).
  - rewrite lit_app. apply Forall_app. split; [|apply (HN (N.pos p))].
    constructor; [by right | constructor].
Qed.

Lemma out_name_no_slash ua index prompt seed :
  Forall (λ c, c ≠ 47%N) (out_name ua index prompt seed).
Proof.
  unfold out_name. rewrite !Forall_app. split_and!.
  - eapply Forall_impl; [apply format_05d_digits|]. apply is_digit_not_slash.
  - by repeat constructor.
  - eapply Forall_impl; [apply prompt_name_allowed|]. apply allowed_not_slash.
  - by repeat constructor.
  - eapply Forall_impl; [apply lit_pretty_Z_chars|].
    intros c [H| ->]; [by apply is_digit_not_slash|done].
  - by repeat constructor.
Qed.

Lemma out_name_cons ua index prompt seed :
  ∃ c rest, out_name ua index prompt seed = c :: rest ∧ c ≠ 47%N.
Proof.
  pose proof (out_name_no_slash ua index prompt seed) as H.
  pose proof (format_05d_length index) as Hlen.
  unfold out_name in *.
  destruct (format_05d index) as [|c f]; [simpl in Hlen; lia|].
  simpl in *. exists c, (f ++ lit "_" ++ prompt_name ua prompt ++ lit "_seed" ++ str seed ++ lit ".png").
  split; [done|]. by inversion H.
Qed.

Lemma os_path_join_results name c rest :
  name = c :: rest → c ≠ 47%N →
  os_path_join OUTPUT_DIR name = lit "./results/" ++ name.
Proof.
  intros -> Hc. unfold os_path_join.
  destruct c as [|p]; [reflexivity|].
  do 6 (destruct p as [p|p|]; try reflexivity). congruence.
Qed.

Lemma strip_prefix_app pre s : strip_prefix pre (pre ++ s) = Some s.
Proof.
  induction pre as [|a pre IH]; simpl; [by destruct s|].
  by rewrite N.eqb_refl.
Qed.

Lemma entry_of_results name :
  Forall (λ c, c ≠ 47%N) name → name ≠ [] →
  entry_of (lit "./results/" ++ name) = Some name.
Proof.
  intros Hns Hne. unfold entry_of.
  change (lit "./results/") with (OUTPUT_DIR ++ lit "/").
  rewrite strip_prefix_app.
  rewrite bool_decide_eq_false_2.
  - rewrite bool_decide_eq_false_2; done.
  - intros Hin. by apply (Forall_forall _ _ ) with (x := 47%N) in Hns.
Qed.

(** One save that does not fail in the library: the file gets the name
    built from the number of entries, inside the results directory. *)
Lemma save_image_ok ua o image prompt seed w :
  save_raises o = None →
  let name := out_name ua (size (entries w)) prompt seed in
  save_image ua o image prompt seed w
  = (mkWorld (loaded_pipeline_config w) (models_downloaded w) (heap w)
       (next_handle w) (Some (<[name := image]> (entries w)))
       (log w ++ [EvMakedirs (bool_decide (results_dir w = None));
                  EvSave name (bool_decide (is_Some (entries w !! name)))]),
     Ok (lit "./results/" ++ name)).
Proof.
  intros Hsave name.
  destruct (out_name_cons ua (size (entries w)) prompt seed)
    as (c & rest & Hname & Hc).
  pose proof (out_name_no_slash ua (size (entries w)) prompt seed) as Hns.
  fold name in Hname, Hns.
  assert (name ≠ []) as Hne by (rewrite Hname; done).
  destruct w as [m md hp nh rd lg]. unfold entries in *. simpl in *.
  unfold save_image, makedirs, listdir_len, image_save.
  destruct rd as [d|]; simpl in *;
    cbv [mbind M_bind mret M_ret emit modify results_dir
         loaded_pipeline_config models_downloaded heap next_handle log];
    fold name;
    rewrite (os_path_join_results name c rest Hname Hc), Hsave,
            (entry_of_results name Hns Hne);
    rewrite <- ?app_assoc; reflexivity.
Qed.

Lemma save_all_spec ua reqs : ∀ w,
  Forall (λ r, save_raises (sr_oracle r) = None) reqs →
  (∀ name, is_Some (entries w !! name) →
           (seq_number name < N.of_nat (size (entries w)))%N) →
  ∃ w' paths evs,
    save_all ua reqs w = (w', Ok paths) ∧
    log w' = log w ++ evs ∧
    size (entries w') = (size (entries w) + length reqs)%nat ∧
    entries w ⊆ entries w' ∧
    (reqs ≠ [] → is_Some (results_dir w')) ∧
    length (filter (λ e, is_save e = true) evs) = length reqs ∧
    Forall (λ e, is_save e = true → is_fresh_save e = true) evs ∧
    ∀ k r, reqs !! k = Some r →
      let name := out_name ua (size (entries w) + k) (sr_prompt r) (sr_seed r) in
      paths !! k = Some (lit "./results/" ++ name) ∧
      entries w' !! name = Some (sr_image r).
Proof.
  induction reqs as [|r reqs IH]; intros w Hok Hinv.
  - exists w, [], []. simpl. rewrite app_nil_r, Nat.add_0_r.
    split_and!; try done. 
  - apply Forall_cons in Hok as [Hr Hok].
    set (n := size (entries w)).
    set (name := out_name ua n (sr_prompt r) (sr_seed r)).
    pose proof (save_image_ok ua (sr_oracle r) (sr_image r) (sr_prompt r)
                  (sr_seed r) w Hr) as Hsave.
    cbv zeta in Hsave. fold n in Hsave. fold name in Hsave.
    assert (entries w !! name = None) as Hfresh.
    { destruct (entries w !! name) eqn:E; [|done].
      assert (seq_number name < N.of_nat n)%N as Hlt by (apply Hinv; eauto).
      unfold name in Hlt. rewrite seq_number_out_name in Hlt. lia. }
    rewrite Hfresh in Hsave.
    rewrite (bool_decide_eq_false_2 (is_Some None)) in Hsave
      by (intros [? ?]; done).
    match type of Hsave with _ = (?x, _) => set (w1 := x) in * end.
    assert (entries w1 = <[name := sr_image r]> (entries w)) as Hent1 by done.
    assert (size (entries w1) = S n) as Hsize1.
    { rewrite Hent1. by apply map_size_insert_None. }
    destruct (IH w1 Hok) as (w' & paths & evs & Hrun & Hlog & Hsize & Hsub & Hdir
                             & Hcount & Hfr & Hfiles).
    { intros name' Hin. rewrite Hsize1. rewrite Hent1 in Hin.
      destruct (decide (name' = name)) as [->|Hne].
      - unfold name. rewrite seq_number_out_name. lia.
      - rewrite lookup_insert_ne in Hin by done.
        specialize (Hinv name' Hin). fold n in Hinv. lia. }
    exists w', ((lit "./results/" ++ name) :: paths),
      ([EvMakedirs (bool_decide (results_dir w = None)); EvSave name false] ++ evs).
    split_and!.
    + cbn [save_all]. erewrite bind_ok by exact Hsave.
      erewrite bind_ok by exact Hrun. reflexivity.
    + rewrite Hlog. subst w1. simpl. by rewrite <- app_assoc.
    + rewrite Hsize, Hsize1. simpl. lia.
    + etrans; [|exact Hsub]. rewrite Hent1. by apply insert_subseteq.
    + intros _. destruct reqs as [|r' reqs'].
      * simpl in Hrun. injection Hrun as <- _. subst w1. simpl. eauto.
      * by apply Hdir.
    + cbn [app]. rewrite filter_cons_False by (simpl; done).
      rewrite filter_cons_True by done. cbn [length]. by rewrite Hcount.
    + simpl. constructor; [done|]. constructor; [done|]. exact Hfr.
    + intros k r' Hk. destruct k as [|k]; simpl in Hk.
      * injection Hk as <-. rewrite Nat.add_0_r. fold n. fold name.
        split; [done|].
        eapply lookup_weaken; [|exact Hsub]. rewrite Hent1.
        apply lookup_insert_eq.
      * specialize (Hfiles k r' Hk). cbv zeta in Hfiles.
        rewrite Hsize1 in Hfiles.
        cbv zeta. replace (n + S k)%nat with (S n + k)%nat by lia.
        exact Hfiles.
Qed.

(** C9.  Saves made one after the other into an empty (or absent) results
    area, none failing in the library: every save returns the path of its
    file inside [./results]; the directory exists afterwards; there are as
    many [EvSave] events as saves and none of them replaced an existing file;
    the directory ends with exactly N entries; the k-th file holds the k-th
    image under the name that starts with the number k, whatever the prompt. *)
Theorem sequential_saves_numbered ua reqs w :
  entries w = ∅ →
  Forall (λ r, save_raises (sr_oracle r) = None) reqs →
  ∃ w' paths evs,
    save_all ua reqs w = (w', Ok paths) ∧
    log w' = log w ++ evs ∧
    size (entries w') = length reqs ∧
    (reqs ≠ [] → is_Some (results_dir w')) ∧
    length (filter (λ e, is_save e = true) evs) = length reqs ∧
    Forall (λ e, is_save e = true → is_fresh_save e = true) evs ∧
    ∀ k r, reqs !! k = Some r →
      let name := out_name ua k (sr_prompt r) (sr_seed r) in
      paths !! k = Some (lit "./results/" ++ name) ∧
      entries w' !! name = Some (sr_image r) ∧
      seq_number name = N.of_nat k ∧
      leading_digits name = format_05d k.
Proof.
  intros Hempty Hok.
  destruct (save_all_spec ua reqs w Hok)
    as (w' & paths & evs & Hrun & Hlog & Hsize & _ & Hdir & Hcount & Hfr & Hfiles).
  { intros name [? Hin]. rewrite Hempty in Hin. done. }
  rewrite Hempty, map_size_empty in Hsize, Hfiles. simpl in Hsize, Hfiles.
  exists w', paths, evs. split_and!; try done.
  intros k r Hk name. destruct (Hfiles k r Hk) as [Hpath Hfile].
  split_and!; try done.
  - apply seq_number_out_name.
  - unfold name, out_name. apply leading_digits_app.
    + apply format_05d_digits.
    + done.
    + simpl. by intros c [= <-].
Qed.

Lemma sequential_saves_numbered_witness :
  ∃ w' paths evs,
    save_all ascii_only three_saves (initial_world None) = (w', Ok paths) ∧
    log w' = log (initial_world None) ++ evs ∧
    size (entries w') = length three_saves ∧
    (three_saves ≠ [] → is_Some (results_dir w')) ∧
    length (filter (λ e, is_save e = true) evs) = length three_saves ∧
    Forall (λ e, is_save e = true → is_fresh_save e = true) evs ∧
    ∀ k r, three_saves !! k = Some r →
      let name := out_name ascii_only k (sr_prompt r) (sr_seed r) in
      paths !! k = Some (lit "./results/" ++ name) ∧
      entries w' !! name = Some (sr_image r) ∧
      seq_number name = N.of_nat k ∧
      leading_digits name = format_05d k.
Proof.
  apply (sequential_saves_numbered ascii_only three_saves (initial_world None)).
  - reflexivity.
  - repeat constructor.
Defined.

Example three_saves_names :
  (save_all ascii_only three_saves (initial_world None)).2
  = Ok [lit "./results/00000_a_b____c_seed7.png";
        lit "./results/00001_say__hi_seed7.png";
        lit "./results/00002__seed7.png"].
Proof. vm_compute. reflexivity. Qed.

(** * Further properties of the code *)

(** X1.  [download_models] never touches the pipeline dictionary, the live
    objects, the handle counter or the results directory, whatever the
    downloads do. *)
Lemma download_models_leaves_cache o w :
  let w' := (download_models o w).1 in
  loaded_pipeline_config w' = loaded_pipeline_config w ∧
  heap w' = heap w ∧ next_handle w' = next_handle w ∧
  results_dir w' = results_dir w.
Proof.
  intros w'. subst w'.
  destruct (download_models o w) as [w0 r] eqn:H.
  exact (download_models_frame _ _ _ _ H).
Qed.

Lemma download_models_ok_flag o w w1 :
  download_models o w = (w1, Ok tt) → models_downloaded w1 = true.
Proof.
  unfold download_models, snapshot_download, try_except.
  destruct w as [m md hp nh rd lg]. simpl.
  destruct md; [intros [= <-]; done|].
  destruct (snapshot_infu_raises o), (snapshot_flux_raises o);
    cbv [mbind M_bind mret M_ret emit modify raise]; simpl;
    intros [= <-]; done.
Qed.

(** X2.  Once [download_models] has returned normally, every later call returns
    at once: no [snapshot_download], nothing printed, state unchanged, even
    if the registry is unreachable by then. *)
Lemma download_models_once o1 o2 w w1 :
  download_models o1 w = (w1, Ok tt) →
  download_models o2 w1 = (w1, Ok tt).
Proof.
  intros H. apply download_models_ok_flag in H.
  unfold download_models. by rewrite H.
Qed.

Lemma download_models_once_witness :
  download_models flux_denied (download_models quiet (initial_world None)).1
  = ((download_models quiet (initial_world None)).1, Ok tt).
Proof.
  apply (download_models_once quiet flux_denied (initial_world None)).
  vm_compute. reflexivity.
Defined.

(** X3.  A failed FLUX download is reported as [Exception("Model download
    failed")] after the error and two hints are printed, and leaves
    [models_downloaded] false: the next call starts over and fetches the
    InfiniteYou snapshot again before FLUX. *)
Lemma flux_failure_retries_everything o1 o2 w msg :
  models_downloaded w = false →
  snapshot_infu_raises o1 = None →
  snapshot_flux_raises o1 = Some msg →
  snapshot_infu_raises o2 = None →
  snapshot_flux_raises o2 = None →
  ∃ w1 w2 hint1 hint2,
    download_models o1 w = (w1, Raise (Exception "Model download failed")) ∧
    models_downloaded w1 = false ∧
    log w1 = log w ++ [EvSnapshotDownload "ByteDance/InfiniteYou";
                       EvSnapshotDownload "black-forest-labs/FLUX.1-dev";
                       EvPrint msg; EvPrint hint1; EvPrint hint2] ∧
    download_models o2 w1 = (w2, Ok tt) ∧
    models_downloaded w2 = true ∧
    log w2 = log w1 ++ [EvSnapshotDownload "ByteDance/InfiniteYou";
                        EvSnapshotDownload "black-forest-labs/FLUX.1-dev"].
Proof.
  intros Hmd Hi1 Hf1 Hi2 Hf2.
  destruct w as [m md hp nh rd lg]. simpl in Hmd. subst md.
  unfold download_models, snapshot_download, try_except. simpl.
  rewrite Hi1, Hf1.
  cbv [mbind M_bind mret M_ret emit modify raise]. simpl.
  rewrite Hi2, Hf2. simpl.
  eexists _, _, _, _. split_and!; try reflexivity.
  - by rewrite <- !app_assoc.
  - by rewrite <- !app_assoc.
Qed.

Lemma flux_failure_retries_everything_witness :
  ∃ w1 w2 hint1 hint2,
    download_models flux_denied (initial_world None)
      = (w1, Raise (Exception "Model download failed")) ∧
    models_downloaded w1 = false ∧
    log w1 = log (initial_world None)
             ++ [EvSnapshotDownload "ByteDance/InfiniteYou";
                 EvSnapshotDownload "black-forest-labs/FLUX.1-dev";
                 EvPrint "401 Client Error"; EvPrint hint1; EvPrint hint2] ∧
    download_models quiet w1 = (w2, Ok tt) ∧
    models_downloaded w2 = true ∧
    log w2 = log w1 ++ [EvSnapshotDownload "ByteDance/InfiniteYou";
                        EvSnapshotDownload "black-forest-labs/FLUX.1-dev"].
Proof.
  apply (flux_failure_retries_everything flux_denied quiet (initial_world None)
           "401 Client Error"); reflexivity.
Defined.

(** X4.  An error of the InfiniteYou download is not wrapped: it leaves
    [download_models] as it was raised, before FLUX is attempted, and nothing
    is printed. *)
Lemma infu_failure_propagates o w msg :
  models_downloaded w = false →
  snapshot_infu_raises o = Some msg →
  ∃ w1,
    download_models o w = (w1, Raise (ExternalError msg)) ∧
    models_downloaded w1 = false ∧
    log w1 = log w ++ [EvSnapshotDownload "ByteDance/InfiniteYou"].
Proof.
  intros Hmd Hi.
  destruct w as [m md hp nh rd lg]. simpl in Hmd. subst md.
  unfold download_models, snapshot_download, try_except. simpl.
  rewrite Hi. cbv [mbind M_bind mret M_ret emit modify raise]. simpl.
  eexists. split_and!; reflexivity.
Qed.

Lemma infu_failure_propagates_witness :
  ∃ w1,
    download_models registry_down (initial_world None)
      = (w1, Raise (ExternalError "Connection refused")) ∧
    models_downloaded w1 = false ∧
    log w1 = log (initial_world None)
             ++ [EvSnapshotDownload "ByteDance/InfiniteYou"].
Proof.
  apply (infu_failure_propagates registry_down (initial_world None)
           "Connection refused"); reflexivity.
Defined.

(** X5.  Whatever a call of [prepare] does afterwards, the five inserts of lines
    92-96 come first: when it returns or raises, the dictionary records the
    requested configuration. *)
Lemma prepare_always_records o c w w' r :
  cache_inv w → prepare o c w = (w', r) →
  records c (loaded_pipeline_config w').
Proof.
  intros Hinv Hrun.
  prepare_cases Hinv Hrun; simplify_eq; world_proj;
    unfold records; split_and!; solve_lookup.
  all: apply hit_b_true in Hhit as (_ & ? & ? & ? & ? & ?); simplify_eq;
    congruence.
Qed.

Lemma prepare_always_records_witness :
  records other_stage
    (loaded_pipeline_config
       (prepare weights_missing other_stage (initial_world None)).1).
Proof.
  apply (prepare_always_records weights_missing other_stage
           (initial_world None) _
           (prepare weights_missing other_stage (initial_world None)).2).
  - apply cache_inv_initial.
  - vm_compute. reflexivity.
Defined.

Ltac count_events :=
  unfold reconstructions, releases;
  repeat first
    [ rewrite filter_cons_True by done
    | rewrite filter_cons_False by (simpl; congruence) ];
  rewrite ?filter_nil; reflexivity.

(** X6.  The constructor is called exactly when nothing is resident or the
    resident pipeline is of another variant; a pipeline is released exactly
    in the second case.  The other flags play no part. *)
Lemma rebuild_exactly_on_variant_change o c w w' r :
  cache_inv w → prepare o c w = (w', r) →
  ∃ evs, log w' = log w ++ evs ∧
    reconstructions evs
      = (if bool_decide (resident_variant w = Some (variant c))
         then 0 else 1)%nat ∧
    releases evs
      = match resident_variant w with
        | Some mv => if bool_decide (mv = variant c) then 0 else 1
        | None => 0
        end%nat.
Proof.
  intros Hinv Hrun.
  prepare_cases Hinv Hrun; simplify_eq; world_proj; flat_log;
    unfold resident_variant; world_proj;
    repeat match goal with H : _ !! _ = _ |- _ => rewrite H end;
    try (apply hit_b_true in Hhit as (_ & _ & _ & _ & _ & Hv);
         injection Hv as Hv);
    try (apply bool_decide_eq_true in Hsame);
    try (apply bool_decide_eq_false in Hsame);
    try (exists []; rewrite app_nil_r; split; [reflexivity|]);
    try (eexists; split; [reflexivity|]);
    rewrite ?Hv, ?Hsame;
    rewrite ?bool_decide_eq_true_2 by done;
    rewrite ?(bool_decide_eq_false_2 (Some _ = Some _)) by congruence;
    rewrite ?(bool_decide_eq_false_2 (None = Some _)) by congruence;
    rewrite ?(bool_decide_eq_false_2 (_ = variant c)) by congruence;
    (split; count_events).
Qed.

Lemma rebuild_exactly_on_variant_change_witness :
  let w := (prepare quiet plain (initial_world None)).1 in
  ∃ evs, log (prepare quiet plain_8bit w).1 = log w ++ evs ∧
    reconstructions evs
      = (if bool_decide (resident_variant w = Some (variant plain_8bit))
         then 0 else 1)%nat ∧
    releases evs
      = match resident_variant w with
        | Some mv => if bool_decide (mv = variant plain_8bit) then 0 else 1
        | None => 0
        end%nat.
Proof.
  apply (rebuild_exactly_on_variant_change quiet plain_8bit
           (prepare quiet plain (initial_world None)).1 _
           (prepare quiet plain_8bit
              (prepare quiet plain (initial_world None)).1).2).
  - apply (prepare_ok_inv quiet plain (initial_world None) _ (VPipe 0%nat)).
    + apply cache_inv_initial.
    + vm_compute. reflexivity.
  - vm_compute. reflexivity.
Defined.

(** X7.  [load_loras] raises after the configuration was recorded (lines 92-96
    run first).  The same request made again is then a hit: it returns the
    resident pipeline at once and changes nothing, so the load that failed is
    never attempted again, although the dictionary records the requested
    configuration. *)
Lemma load_failure_then_stale_hit o c w w1 e :
  cache_inv w →
  ctor_raises o = None → delete_adapters_raises o = None →
  prepare o c w = (w1, Raise e) →
  ∃ h obj msg,
    e = ExternalError msg ∧ load_loras_raises o = Some msg ∧
    heap w1 !! h = Some obj ∧
    records c (loaded_pipeline_config w1) ∧
    ∀ o2, prepare o2 c w1 = (w1, Ok (VPipe h)).
Proof.
  intros Hinv Hctor0 Hdel0 Hrun.
  prepare_cases Hinv Hrun; simplify_eq; world_proj.
  - (* built, then load_loras raised *)
    eexists nh, _, _. split_and!; [reflexivity|first [eassumption|reflexivity]| | |].
    + rewrite alter_insert_eq. apply lookup_insert_eq.
    + unfold records. split_and!; solve_lookup.
    + intros o2. apply prepare_hit; world_proj.
      * unfold records. split_and!; solve_lookup.
      * solve_lookup.
  - (* same variant, then load_loras raised *)
    eexists h, _, _. split_and!; [reflexivity|first [eassumption|reflexivity]| | |].
    + rewrite alter_singleton_eq. apply lookup_singleton_eq.
    + unfold records. split_and!; solve_lookup.
    + intros o2. apply prepare_hit; world_proj.
      * unfold records. split_and!; solve_lookup.
      * solve_lookup.
  - (* other variant: rebuilt, then load_loras raised *)
    eexists nh, _, _. split_and!; [reflexivity|first [eassumption|reflexivity]| | |].
    + rewrite alter_insert_eq. apply lookup_insert_eq.
    + unfold records. split_and!; solve_lookup.
    + intros o2. apply prepare_hit; world_proj.
      * unfold records. split_and!; solve_lookup.
      * solve_lookup.
Qed.

Lemma load_failure_then_stale_hit_witness :
  let w1 := (prepare loras_fail plain_realism (initial_world None)).1 in
  ∃ h obj msg,
    ExternalError "lora file missing" = ExternalError msg ∧
    load_loras_raises loras_fail = Some msg ∧
    heap w1 !! h = Some obj ∧
    records plain_realism (loaded_pipeline_config w1) ∧
    ∀ o2, prepare o2 plain_realism w1 = (w1, Ok (VPipe h)).
Proof.
  apply (load_failure_then_stale_hit loras_fail plain_realism
           (initial_world None) _ (ExternalError "lora file missing")).
  - apply cache_inv_initial.
  - reflexivity.
  - reflexivity.
  - vm_compute. reflexivity.
Defined.

Lemma adapters_sync_initial dir : adapters_sync (initial_world dir).
Proof.
  exists false, false. split_and!; try reflexivity.
  intros h obj Hp. vm_compute in Hp. discriminate.
Qed.

Lemma lora_names_of c :
  map lora_name (loras_of c) = lora_names (realism c) (anti_blur c).
Proof. unfold loras_of, lora_names. by destruct (realism c), (anti_blur c). Qed.

Lemma lora_names_detached er eab :
  filter (λ a, a ∉ ["realism"; "anti_blur"]) (lora_names er eab) = [].
Proof. destruct er, eab; reflexivity. Qed.

(** X8.  While the resident object carries the adapters the dictionary records,
    a successful [prepare] returns a pipeline that carries exactly the
    requested adapters (realism before anti_blur), and keeps that agreement. *)
Lemma prepare_attaches_requested o c w w' p :
  cache_inv w → adapters_sync w →
  prepare o c w = (w', Ok p) →
  adapters_sync w' ∧
  ∃ h obj, p = VPipe h ∧ heap w' !! h = Some obj ∧
           adapters obj = lora_names (realism c) (anti_blur c).
Proof.
  intros Hinv (er & eab & Her & Heab & Hsync) Hrun.
  assert (∀ (m : gmap string PyVal) (hp : gmap Handle Pipeline) md nh rd lg h
            obj,
            records c m → m !! "pipeline" = Some (VPipe h) →
            hp !! h = Some obj →
            adapters obj = lora_names (realism c) (anti_blur c) →
            adapters_sync (mkWorld m md hp nh rd lg)) as Hmk.
  { intros m' hp' md' nh' rd' lg' h' obj' (R1 & R2 & _) Hp' Hobj' Had'.
    exists (realism c), (anti_blur c). split_and!; try done.
    intros h2 obj2. world_proj. intros Hp2 Hobj2. congruence. }
  prepare_cases Hinv Hrun; simplify_eq; world_proj.
  - (* built *)
    assert (adapters (mkPipeline (variant c) (quantized c) (offload c)
              ([] ++ map lora_name (loras_of c)))
            = lora_names (realism c) (anti_blur c)) as Had
      by (simpl; apply lora_names_of).
    split.
    + eapply Hmk; [| |rewrite !alter_insert_eq; apply lookup_insert_eq|exact Had].
      * unfold records. split_and!; solve_lookup.
      * solve_lookup.
    + eexists nh, _. split_and!; [done| |exact Had].
      rewrite !alter_insert_eq. apply lookup_insert_eq.
  - (* hit *)
    apply hit_b_true in Hhit as (_ & ? & ? & ? & ? & ?). simplify_eq.
    assert (adapters obj = lora_names (realism c) (anti_blur c)) as Had
      by (apply (Hsync h); [done|apply lookup_singleton_eq]).
    split.
    + eapply Hmk; [| exact Hp | apply lookup_singleton_eq | exact Had].
      unfold records. split_and!; congruence.
    + eexists h, obj. split_and!; [done|apply lookup_singleton_eq|exact Had].
  - (* same variant *)
    assert (adapters obj = lora_names er eab) as Hold
      by (apply (Hsync h); [done|apply lookup_singleton_eq]).
    assert (adapters (mkPipeline (model_version_of obj) (quantize_8bit_of obj)
              (cpu_offload_of obj)
              (filter (λ a, a ∉ ["realism"; "anti_blur"]) (adapters obj)
                 ++ map lora_name (loras_of c)))
            = lora_names (realism c) (anti_blur c)) as Had.
    { simpl. rewrite Hold, lora_names_detached. apply lora_names_of. }
    split.
    + eapply Hmk; [| |rewrite !alter_singleton_eq; apply lookup_singleton_eq
                   |exact Had].
      * unfold records. split_and!; solve_lookup.
      * solve_lookup.
    + eexists h, _. split_and!; [done| |exact Had].
      rewrite !alter_singleton_eq. apply lookup_singleton_eq.
  - (* other variant *)
    assert (adapters (mkPipeline (variant c) (quantized c) (offload c)
              ([] ++ map lora_name (loras_of c)))
            = lora_names (realism c) (anti_blur c)) as Had
      by (simpl; apply lora_names_of).
    split.
    + eapply Hmk; [| |rewrite !alter_insert_eq; apply lookup_insert_eq|exact Had].
      * unfold records. split_and!; solve_lookup.
      * solve_lookup.
    + eexists nh, _. split_and!; [done| |exact Had].
      rewrite !alter_insert_eq. apply lookup_insert_eq.
Qed.

Lemma prepare_attaches_requested_witness :
  adapters_sync (prepare quiet plain_realism (initial_world None)).1 ∧
  ∃ h obj, VPipe 0%nat = VPipe h ∧
           heap (prepare quiet plain_realism (initial_world None)).1 !! h
             = Some obj ∧
           adapters obj = lora_names (realism plain_realism)
                                     (anti_blur plain_realism).
Proof.
  apply (prepare_attaches_requested quiet plain_realism (initial_world None)).
  - apply cache_inv_initial.
  - apply adapters_sync_initial.
  - vm_compute. reflexivity.
Defined.

Ltac close_frame :=
  eexists _, _, _; split; [reflexivity|]; world_proj;
  split_and!;
  [ reflexivity | reflexivity | reflexivity | reflexivity
  | rewrite <- ?app_assoc; reflexivity
  | repeat constructor ].

Lemma request_unfold ua i o seed c :
  request ua i o seed c
  = (download_models o;;
     pipeline ← prepare o c;
     infer_and_save ua i o seed c pipeline).
Proof. reflexivity. Qed.

(** What [infer_and_save] can do to the world: it always returns normally,
    leaves dictionary, objects and handle counter alone, and logs nothing
    about models. *)
Lemma infer_and_save_frame ua i o seed c p w :
  ∃ w' u evs,
    infer_and_save ua i o seed c p w = (w', Ok (u, str (draw_seed o seed))) ∧
    loaded_pipeline_config w' = loaded_pipeline_config w ∧
    heap w' = heap w ∧ next_handle w' = next_handle w ∧
    models_downloaded w' = models_downloaded w ∧
    log w' = log w ++ evs ∧
    Forall (λ e, is_model_work e = false) evs.
Proof.
  destruct w as [m md hp nh rd lg].
  unfold infer_and_save, try_except, call_pipeline, save_image, makedirs,
    listdir_len, image_save.
  cbv [mbind M_bind mret M_ret emit modify raise results_dir
       loaded_pipeline_config models_downloaded heap next_handle log].
  destruct p as [| | |h]; try close_frame.
  destruct (hp !! h) as [obj|]; [|close_frame].
  destruct (call_result o obj (request_args i o seed c)) as [image|msg];
    [|close_frame].
  destruct rd as [d|]; destruct (save_raises o) as [msg|];
    repeat match goal with
           | |- context [match entry_of ?x with _ => _ end] =>
               destruct (entry_of x)
           end;
    close_frame.
Qed.

(** X9.  [download_models] and [prepare_pipeline] run outside the [try], and the
    handler catches everything raised inside it: an exception leaves
    [generate_image] exactly when one of the two raised it, with the state
    they left; a failure of inference or of the save never does. *)
Lemma request_raises_exactly_setup_errors ua i o seed c w w1 e :
  request ua i o seed c w = (w1, Raise e) ↔
  (download_models o w = (w1, Raise e) ∨
   ∃ w0, download_models o w = (w0, Ok tt) ∧ prepare o c w0 = (w1, Raise e)).
Proof.
  rewrite request_unfold. split.
  - intros H.
    destruct (download_models o w) as [w0 [[]|e0]] eqn:Hd.
    + erewrite bind_ok in H by exact Hd.
      destruct (prepare o c w0) as [w2 [p|e0]] eqn:Hprep.
      * erewrite bind_ok in H by exact Hprep.
        destruct (infer_and_save_frame ua i o seed c p w2)
          as (w3 & u & evs & Hrun & _).
        rewrite Hrun in H. discriminate.
      * erewrite bind_raise in H by exact Hprep. injection H as <- <-.
        right. eauto.
    + erewrite bind_raise in H by exact Hd. injection H as <- <-. by left.
  - intros [Hd | (w0 & Hd & Hprep)].
    + by erewrite bind_raise.
    + erewrite bind_ok by exact Hd. by erewrite bind_raise.
Qed.

Lemma request_raises_exactly_setup_errors_witness :
  request ascii_only portrait weights_missing 7 other_stage (initial_world None)
  = ((prepare weights_missing other_stage
        (download_models weights_missing (initial_world None)).1).1,
     Raise (ExternalError "weights missing")).
Proof.
  apply request_raises_exactly_setup_errors. right.
  exists (download_models weights_missing (initial_world None)).1.
  split; vm_compute; reflexivity.
Defined.

(** A request returns normally exactly when [download_models] and
    [prepare_pipeline] did. *)
Lemma request_ok_inv ua i o seed c w w' res :
  request ua i o seed c w = (w', Ok res) →
  ∃ w0 w1 p,
    download_models o w = (w0, Ok tt) ∧ prepare o c w0 = (w1, Ok p) ∧
    infer_and_save ua i o seed c p w1 = (w', Ok res).
Proof.
  rewrite request_unfold. intros H.
  destruct (download_models o w) as [w0 [[]|e]] eqn:Hd.
  - erewrite bind_ok in H by exact Hd.
    destruct (prepare o c w0) as [w1 [p|e]] eqn:Hp.
    + erewrite bind_ok in H by exact Hp. eauto 10.
    + erewrite bind_raise in H by exact Hp. discriminate.
  - erewrite bind_raise in H by exact Hd. discriminate.
Qed.

Lemma cache_inv_frame w w' :
  loaded_pipeline_config w' = loaded_pipeline_config w →
  heap w' = heap w → next_handle w' = next_handle w →
  cache_inv w → cache_inv w'.
Proof. intros Hc Hh Hn. unfold cache_inv. by rewrite Hc, Hh, Hn. Qed.

Ltac resident_goal tac :=
  right; eexists _, _; split; [solve_lookup|]; split; [tac|];
  split; [simpl; solve_lookup; congruence | first [done | lia]].

Lemma prepare_state_ok o c w w' r :
  cache_inv w → prepare o c w = (w', r) → cache_inv w' ∨ key_lost w'.
Proof.
  intros Hinv Hrun.
  destruct r as [p|e].
  { left. by destruct (prepare_ok_inv _ _ _ _ _ Hinv Hrun). }
  prepare_cases Hinv Hrun; simplify_eq; world_proj;
    try (right; split; world_proj;
         [by rewrite lookup_delete_eq | by rewrite delete_singleton_eq]);
    left; unfold cache_inv; world_proj; (split_and!; [solve_lookup..|]).
  - left. split; [solve_lookup|done].
  - resident_goal ltac:(by rewrite insert_empty).
  - resident_goal ltac:(by rewrite alter_insert_eq, insert_empty).
  - apply bool_decide_eq_true in Hsame.
    resident_goal ltac:(reflexivity).
  - apply bool_decide_eq_true in Hsame.
    resident_goal ltac:(by rewrite alter_singleton_eq).
  - resident_goal ltac:(by rewrite delete_singleton_eq, insert_empty).
  - resident_goal
      ltac:(by rewrite delete_singleton_eq, alter_insert_eq, insert_empty).
Qed.

Lemma request_state_ok ua i o seed c w :
  cache_inv w ∨ key_lost w →
  let w' := (request ua i o seed c w).1 in
  cache_inv w' ∨ key_lost w'.
Proof.
  intros Hok w'. subst w'. rewrite request_unfold.
  destruct (download_models o w) as [w0 [[]|e]] eqn:Hd.
  - assert (cache_inv w0 ∨ key_lost w0) as Hok0.
    { destruct (download_models_frame _ _ _ _ Hd) as (Hc & Hh & Hn & _).
      destruct Hok as [Hinv | [Hk Hh0]].
      - left. by eapply cache_inv_frame.
      - right. split; congruence. }
    erewrite bind_ok by exact Hd.
    destruct (prepare o c w0) as [w1 [p|e]] eqn:Hp.
    + assert (cache_inv w1 ∨ key_lost w1) as Hok1.
      { destruct Hok0 as [Hinv | [Hk Hh0]].
        - by eapply prepare_state_ok.
        - rewrite prepare_key_absent in Hp by done. discriminate. }
      erewrite bind_ok by exact Hp.
      destruct (infer_and_save_frame ua i o seed c p w1)
        as (w2 & u & evs & -> & Hc & Hh & Hn & _).
      simpl. destruct Hok1 as [Hinv | [Hk Hh1]].
      * left. by eapply cache_inv_frame.
      * right. split; congruence.
    + erewrite bind_raise by exact Hp. simpl.
      destruct Hok0 as [Hinv | [Hk Hh0]].
      * by eapply prepare_state_ok.
      * rewrite prepare_key_absent in Hp by done.
        injection Hp as <- _. by right.
  - erewrite bind_raise by exact Hd. simpl.
    destruct (download_models_frame _ _ _ _ Hd) as (Hc & Hh & Hn & _).
    destruct Hok as [Hinv | [Hk Hh0]].
    + left. by eapply cache_inv_frame.
    + right. split; congruence.
Qed.

(** X10.  However the requests end (returned, constructor raised, download failed,
    inference failed), the state after any sequence of them from start-up holds
    at most one pipeline object, and the dictionary either is well formed
    around it or has lost the key ['pipeline'] with no object alive. *)
Theorem at_most_one_pipeline_ever ua rs dir :
  let w := serve ua rs (initial_world dir) in
  (size (heap w) ≤ 1)%nat ∧ (cache_inv w ∨ key_lost w).
Proof.
  intros w. subst w.
  assert (∀ w, cache_inv w ∨ key_lost w →
               cache_inv (serve ua rs w) ∨ key_lost (serve ua rs w)) as Hserve.
  { induction rs as [|r rs IH]; intros w Hok; [exact Hok|].
    simpl. apply IH. by apply request_state_ok. }
  specialize (Hserve (initial_world dir) (or_introl (cache_inv_initial dir))).
  split; [|exact Hserve].
  destruct Hserve as [(_ & _ & _ & _ & _ & [[_ ->] | (h & obj & _ & -> & _)])
                     | [_ ->]].
  - rewrite map_size_empty. lia.
  - rewrite map_size_singleton. lia.
  - rewrite map_size_empty. lia.
Qed.

(** X11.  Once the key ['pipeline'] is lost no request returns normally any more:
    with the models downloaded each one raises [KeyError('pipeline')] at line
    83 and changes nothing. *)
Lemma key_lost_is_permanent ua i o seed c w :
  key_lost w →
  ∃ w' e,
    request ua i o seed c w = (w', Raise e) ∧ key_lost w' ∧
    (models_downloaded w = true → w' = w ∧ e = KeyError "pipeline").
Proof.
  intros [Hk Hh]. rewrite request_unfold.
  destruct (download_models o w) as [w0 [[]|e]] eqn:Hd.
  - destruct (download_models_frame _ _ _ _ Hd) as (Hc & Hh0 & _).
    erewrite bind_ok by exact Hd.
    erewrite bind_raise by (apply prepare_key_absent; congruence).
    eexists _, _. split; [reflexivity|]. split; [split; congruence|].
    intros Hmd. unfold download_models in Hd. rewrite Hmd in Hd.
    injection Hd as <-. done.
  - destruct (download_models_frame _ _ _ _ Hd) as (Hc & Hh0 & _).
    erewrite bind_raise by exact Hd.
    eexists _, _. split; [reflexivity|]. split; [split; congruence|].
    intros Hmd. unfold download_models in Hd. rewrite Hmd in Hd. discriminate.
Qed.

Lemma key_lost_is_permanent_witness :
  let w := serve ascii_only two_requests (initial_world None) in
  ∃ w' e,
    request ascii_only portrait quiet 7 other_stage w = (w', Raise e) ∧
    key_lost w' ∧
    (models_downloaded w = true → w' = w ∧ e = KeyError "pipeline").
Proof.
  apply key_lost_is_permanent. split; vm_compute; reflexivity.
Defined.

Lemma call_pipeline_returns o h obj args image w :
  heap w !! h = Some obj → call_result o obj args = inl image →
  call_pipeline o (VPipe h) args w
  = (mkWorld (loaded_pipeline_config w) (models_downloaded w) (heap w)
             (next_handle w) (results_dir w) (log w ++ [EvInfer h args]),
     Ok image).
Proof.
  intros Hobj Hcall. unfold call_pipeline. rewrite Hobj.
  cbv [mbind M_bind mret M_ret emit modify raise]. by rewrite Hcall.
Qed.

(** X12.  A request on which nothing fails: the pipeline is called once with the
    seed in use, the image is stored in the results directory under the name
    built from the entry count, the prompt and that same seed, and the caller
    gets the image, a label naming seed and path, and the seed as text. *)
Lemma request_success ua i o seed c w w0 w1 h obj image :
  download_models o w = (w0, Ok tt) →
  prepare o c w0 = (w1, Ok (VPipe h)) →
  heap w1 !! h = Some obj →
  call_result o obj (request_args i o seed c) = inl image →
  save_raises o = None →
  let s := draw_seed o seed in
  let name := out_name ua (size (entries w1)) (in_prompt i) s in
  ∃ w',
    request ua i o seed c w
      = (w', Ok (mkGrUpdate (Some image)
                   (Some (lit "Generated Image, seed=" ++ str s
                            ++ lit ", saved to " ++ lit "./results/" ++ name)),
                 str s)) ∧
    results_dir w' = Some (<[name := image]> (entries w1)) ∧
    log w' = log w1 ++ [EvInfer h (request_args i o seed c);
                        EvMakedirs (bool_decide (results_dir w1 = None));
                        EvSave name (bool_decide (is_Some (entries w1 !! name)))] ∧
    seed_arg (request_args i o seed c) = s ∧
    loaded_pipeline_config w' = loaded_pipeline_config w1 ∧
    heap w' = heap w1.
Proof.
  intros Hd Hp Hobj Hcall Hsave s name.
  rewrite request_unfold.
  erewrite bind_ok by exact Hd. erewrite bind_ok by exact Hp.
  unfold infer_and_save, try_except.
  erewrite bind_ok by (by apply (call_pipeline_returns o h obj)).
  erewrite bind_ok by (by apply save_image_ok).
  eexists. split; [reflexivity|]. simpl.
  split_and!; try done. by rewrite <- !app_assoc.
Qed.

Lemma request_success_witness :
  let w := initial_world None in
  let w1 := (prepare quiet plain (download_models quiet w).1).1 in
  let s := draw_seed quiet 7 in
  let name := out_name ascii_only (size (entries w1)) (in_prompt portrait) s in
  ∃ w',
    request ascii_only portrait quiet 7 plain w
      = (w', Ok (mkGrUpdate (Some (MkImage 0))
                   (Some (lit "Generated Image, seed=" ++ str s
                            ++ lit ", saved to " ++ lit "./results/" ++ name)),
                 str s)) ∧
    results_dir w' = Some (<[name := MkImage 0]> (entries w1)) ∧
    log w' = log w1 ++ [EvInfer 0 (request_args portrait quiet 7 plain);
                        EvMakedirs (bool_decide (results_dir w1 = None));
                        EvSave name (bool_decide (is_Some (entries w1 !! name)))] ∧
    seed_arg (request_args portrait quiet 7 plain) = s ∧
    loaded_pipeline_config w' = loaded_pipeline_config w1 ∧
    heap w' = heap w1.
Proof.
  apply (request_success ascii_only portrait quiet 7 plain (initial_world None)
           (download_models quiet (initial_world None)).1
           (prepare quiet plain (download_models quiet (initial_world None)).1).1
           0%nat (mkPipeline "aes_stage2" false false [])).
  - vm_compute. reflexivity.
  - vm_compute. reflexivity.
  - vm_compute. reflexivity.
  - reflexivity.
  - reflexivity.
Defined.

(** X13.  When [image.save] raises, the image the pipeline produced is dropped:
    the caller gets an empty update and the seed, no file is written, but the
    results directory has been created by then. *)
Lemma save_failure_drops_image ua i o seed c w w0 w1 h obj image msg :
  download_models o w = (w0, Ok tt) →
  prepare o c w0 = (w1, Ok (VPipe h)) →
  heap w1 !! h = Some obj →
  call_result o obj (request_args i o seed c) = inl image →
  save_raises o = Some msg →
  ∃ w',
    request ua i o seed c w
      = (w', Ok (mkGrUpdate None None, str (draw_seed o seed))) ∧
    results_dir w' = Some (entries w1) ∧
    log w' = log w1 ++ [EvInfer h (request_args i o seed c);
                        EvMakedirs (bool_decide (results_dir w1 = None));
                        EvPrint msg;
                        EvGrError ("An error occurred: " +:+ msg)].
Proof.
  intros Hd Hp Hobj Hcall Hsave.
  rewrite request_unfold.
  erewrite bind_ok by exact Hd. erewrite bind_ok by exact Hp.
  unfold infer_and_save, try_except.
  erewrite bind_ok by (by apply (call_pipeline_returns o h obj)).
  destruct w1 as [m md hp nh rd lg]. unfold entries. simpl in *.
  unfold save_image, makedirs, listdir_len, image_save.
  cbv [mbind M_bind mret M_ret emit modify raise results_dir
       loaded_pipeline_config models_downloaded heap next_handle log].
  destruct rd as [d|]; simpl; rewrite Hsave;
    (eexists; split; [reflexivity|]; simpl; split; [done|];
     by rewrite <- !app_assoc).
Qed.

Lemma save_failure_drops_image_witness :
  let w := initial_world None in
  let w1 := (prepare disk_full plain (download_models disk_full w).1).1 in
  ∃ w',
    request ascii_only portrait disk_full 7 plain w
      = (w', Ok (mkGrUpdate None None, str (draw_seed disk_full 7))) ∧
    results_dir w' = Some (entries w1) ∧
    log w' = log w1 ++ [EvInfer 0 (request_args portrait disk_full 7 plain);
                        EvMakedirs (bool_decide (results_dir w1 = None));
                        EvPrint "No space left on device";
                        EvGrError ("An error occurred: "
                                   +:+ "No space left on device")].
Proof.
  apply (save_failure_drops_image ascii_only portrait disk_full 7 plain
           (initial_world None)
           (download_models disk_full (initial_world None)).1
           (prepare disk_full plain
              (download_models disk_full (initial_world None)).1).1
           0%nat (mkPipeline "aes_stage2" false false []) (MkImage 5)).
  - vm_compute. reflexivity.
  - vm_compute. reflexivity.
  - vm_compute. reflexivity.
  - reflexivity.
  - reflexivity.
Defined.

Lemma second_request_quiet ua i1 i2 o1 o2 seed1 seed2 c w w1 res1 :
  cache_inv w →
  request ua i1 o1 seed1 c w = (w1, Ok res1) →
  ∃ w2 res2 evs,
    request ua i2 o2 seed2 c w1 = (w2, Ok res2) ∧
    log w2 = log w1 ++ evs ∧
    Forall (λ e, is_model_work e = false) evs ∧
    loaded_pipeline_config w2 = loaded_pipeline_config w1 ∧
    heap w2 = heap w1.
Proof.
  intros Hinv Hrun1.
  destruct (request_ok_inv _ _ _ _ _ _ _ _ Hrun1)
    as (wa & wb & p & Hd & Hprep & Hblock).
  pose proof (download_models_inv _ _ _ _ Hinv Hd) as Hinva.
  destruct (prepare_ok_inv _ _ _ _ _ Hinva Hprep)
    as (Hinvb & Hrec & hd & -> & Hpb).
  destruct (infer_and_save_frame ua i1 o1 seed1 c (VPipe hd) wb)
    as (w1' & u & evs1 & Hblock' & Hc1 & Hh1 & Hn1 & Hmd1 & _).
  rewrite Hblock in Hblock'. injection Hblock' as <- _.
  assert (models_downloaded w1 = true) as Hflag.
  { rewrite Hmd1.
    assert (models_downloaded wa = true) as Hfa
      by (by eapply download_models_ok_flag).
    clear -Hfa Hinva Hprep.
    prepare_cases Hinva Hprep; simplify_eq; done. }
  rewrite request_unfold.
  assert (download_models o2 w1 = (w1, Ok tt)) as Hd2
    by (unfold download_models; by rewrite Hflag).
  erewrite bind_ok by exact Hd2.
  erewrite bind_ok by (apply (prepare_hit o2 c w1 hd); congruence).
  destruct (infer_and_save_frame ua i2 o2 seed2 c (VPipe hd) w1)
    as (w2 & u2 & evs & -> & Hc2 & Hh2 & _ & _ & Hlog & Hev).
  eauto 10.
Qed.

(** X14.  After a request that returned, a request with the same configuration
    does no model work at all: nothing is downloaded, constructed, released
    or attached, whatever its prompt, seed and images and whatever fails in
    it, and it returns too. *)
Lemma warm_request_does_no_model_work ua i1 i2 o1 o2 seed1 seed2 c w w1 res1 :
  cache_inv w →
  request ua i1 o1 seed1 c w = (w1, Ok res1) →
  ∃ w2 res2 evs,
    request ua i2 o2 seed2 c w1 = (w2, Ok res2) ∧
    log w2 = log w1 ++ evs ∧
    Forall (λ e, is_model_work e = false) evs ∧
    loaded_pipeline_config w2 = loaded_pipeline_config w1 ∧
    heap w2 = heap w1.
Proof. apply second_request_quiet. Qed.

Lemma warm_request_does_no_model_work_witness :
  let w1 := (request ascii_only portrait quiet 7 plain (initial_world None)).1 in
  ∃ w2 res2 evs,
    request ascii_only portrait out_of_memory 0 plain w1 = (w2, Ok res2) ∧
    log w2 = log w1 ++ evs ∧
    Forall (λ e, is_model_work e = false) evs ∧
    loaded_pipeline_config w2 = loaded_pipeline_config w1 ∧
    heap w2 = heap w1.
Proof.
  eapply (warm_request_does_no_model_work ascii_only portrait portrait quiet
           out_of_memory 7 0 plain (initial_world None)).
  - apply cache_inv_initial.
  - vm_compute. reflexivity.
Defined.

(** X15.  [generate_examples] is [generate_image] with 8-bit quantization and CPU
    offload switched on: after an example that returned, a Generate request
    for the same variant and add-ons with both options ticked does no model
    work, and the dictionary records both options as enabled. *)
Lemma example_then_generate_shares_pipeline ua o1 o2 id_img ctl_img p seed1
    r a v i2 seed2 w w1 res1 :
  cache_inv w →
  generate_examples ua o1 id_img ctl_img p seed1 r a v w = (w1, Ok res1) →
  loaded_pipeline_config w1 !! "quantize_8bit" = Some (VBool true) ∧
  loaded_pipeline_config w1 !! "cpu_offload" = Some (VBool true) ∧
  ∃ w2 res2 evs,
    generate_image ua o2 (in_id_image i2) (in_control_image i2) (in_prompt i2)
      seed2 (in_width i2) (in_height i2) (in_guidance_scale i2)
      (in_num_steps i2) (in_conditioning_scale i2) (in_guidance_start i2)
      (in_guidance_end i2) r a true true v w1 = (w2, Ok res2) ∧
    log w2 = log w1 ++ evs ∧
    Forall (λ e, is_model_work e = false) evs.
Proof.
  intros Hinv Hrun.
  change (generate_examples ua o1 id_img ctl_img p seed1 r a v)
    with (request ua (example_inputs id_img ctl_img p) o1 seed1
            (example_config r a v)) in Hrun.
  destruct (request_ok_inv _ _ _ _ _ _ _ _ Hrun)
    as (wa & wb & pl & Hd & Hprep & Hblock).
  pose proof (download_models_inv _ _ _ _ Hinv Hd) as Hinva.
  destruct (prepare_ok_inv _ _ _ _ _ Hinva Hprep)
    as (_ & (_ & _ & Hq & Hoff & _) & _).
  destruct (infer_and_save_frame ua (example_inputs id_img ctl_img p) o1 seed1
              (example_config r a v) pl wb)
    as (w1' & u & evs1 & Hblock' & Hc1 & _).
  rewrite Hblock in Hblock'. injection Hblock' as <- _.
  rewrite Hc1. split; [exact Hq|]. split; [exact Hoff|].
  destruct (second_request_quiet ua _ i2 o1 o2 seed1 seed2 _ w w1 res1 Hinv Hrun)
    as (w2 & res2 & evs & Hrun2 & Hlog & Hev & _).
  exists w2, res2, evs. split_and!; [exact Hrun2|exact Hlog|exact Hev].
Qed.

Lemma example_then_generate_shares_pipeline_witness :
  let w1 := (generate_examples ascii_only quiet None None
               (lit "A man, portrait, cinematic") 42 true false "aes_stage2"
               (initial_world None)).1 in
  loaded_pipeline_config w1 !! "quantize_8bit" = Some (VBool true) ∧
  loaded_pipeline_config w1 !! "cpu_offload" = Some (VBool true) ∧
  ∃ w2 res2 evs,
    generate_image ascii_only quiet (in_id_image portrait)
      (in_control_image portrait) (in_prompt portrait)
      0 (in_width portrait) (in_height portrait) (in_guidance_scale portrait)
      (in_num_steps portrait) (in_conditioning_scale portrait)
      (in_guidance_start portrait) (in_guidance_end portrait)
      true false true true "aes_stage2" w1 = (w2, Ok res2) ∧
    log w2 = log w1 ++ evs ∧
    Forall (λ e, is_model_work e = false) evs.
Proof.
  eapply (example_then_generate_shares_pipeline ascii_only quiet quiet None None
            (lit "A man, portrait, cinematic") 42 true false "aes_stage2"
            portrait 0 (initial_world None)).
  - apply cache_inv_initial.
  - vm_compute. reflexivity.
Defined.

Lemma allowed_not_space ua c : allowed ua c = true → c ≠ 32%N.
Proof. intros H ->. vm_compute in H. discriminate. Qed.

Lemma lstrip_us_id s : head s ≠ Some 95%N → lstrip_us s = s.
Proof.
  destruct s as [|c s]; [done|]. simpl. intros H.
  destruct (N.eqb_spec c 95) as [->|]; [done|done].
Qed.

Lemma head_rev_last (s : pystr) : head (rev s) = last s.
Proof.
  induction s as [|c s _] using rev_ind; [done|].
  by rewrite rev_app_distr, last_snoc.
Qed.

Lemma strip_us_id s :
  head s ≠ Some 95%N → last s ≠ Some 95%N → strip_us s = s.
Proof.
  intros Hh Hl. unfold strip_us, rstrip_us.
  rewrite (lstrip_us_id s Hh), lstrip_us_id, rev_involutive; [done|].
  by rewrite head_rev_last.
Qed.

(** X16.  The sanitized prompt part is a fixed point of the sanitization: using it
    as the prompt gives the same part in the file name. *)
Lemma prompt_name_idempotent ua prompt :
  prompt_name ua (prompt_name ua prompt) = prompt_name ua prompt.
Proof.
  set (s := prompt_name ua prompt).
  pose proof (prompt_name_allowed ua prompt) as Hall.
  pose proof (prompt_name_length ua prompt) as Hlen.
  fold s in Hall, Hlen.
  assert (head s ≠ Some 95%N ∧ last s ≠ Some 95%N) as [Hh Hl].
  { unfold s, prompt_name. split; [apply strip_us_head|apply strip_us_last]. }
  unfold prompt_name at 1.
  rewrite take_ge by lia.
  assert (replace_space s = s) as ->.
  { unfold replace_space. rewrite <- (map_id s) at 2.
    apply map_ext_in. intros c Hin.
    rewrite Forall_forall in Hall.
    assert (c ∈ s) as Hin' by (by apply list_elem_of_In).
    specialize (Hall c Hin'). apply allowed_not_space in Hall.
    by destruct (N.eqb_spec c 32). }
  assert (map (sanitize_char ua) s = s) as ->.
  { rewrite <- (map_id s) at 2. apply map_ext_in. intros c Hin.
    rewrite Forall_forall in Hall.
    assert (c ∈ s) as Hin' by (by apply list_elem_of_In).
    rewrite sanitize_char_allowed, (Hall c Hin'). done. }
  by apply strip_us_id.
Qed.

(** X17.  Whatever the prompt and the seed, the path written is the results
    directory, one ['/'] and a file name that contains no ['/'] and starts
    with a digit: prompt text cannot direct the file elsewhere. *)
Lemma saved_path_inside_results ua index prompt seed :
  let name := out_name ua index prompt seed in
  os_path_join OUTPUT_DIR name = lit "./results/" ++ name ∧
  Forall (λ c, c ≠ 47%N) name ∧
  (∃ d rest, name = d :: rest ∧ is_digit d = true) ∧
  entry_of (os_path_join OUTPUT_DIR name) = Some name.
Proof.
  intros name.
  destruct (out_name_cons ua index prompt seed) as (c & rest & Hname & Hc).
  pose proof (out_name_no_slash ua index prompt seed) as Hns.
  fold name in Hname, Hns.
  assert (os_path_join OUTPUT_DIR name = lit "./results/" ++ name) as Hjoin
    by (by eapply os_path_join_results).
  split_and!; [done|done| |].
  - pose proof (format_05d_digits index) as Hd.
    pose proof (format_05d_length index) as Hlen.
    unfold name, out_name in *.
    destruct (format_05d index) as [|d f]; [simpl in Hlen; lia|].
    inversion Hd; subst. eauto.
  - rewrite Hjoin. apply entry_of_results; [done|]. by rewrite Hname.
Qed.

(** X18.  The index is the number of directory entries, not the highest number in
    use: when the name built from it is already taken, the save replaces that
    file, the entry count stays the same, and every other file is kept. *)
Lemma save_replaces_taken_name ua o image prompt seed w old :
  save_raises o = None →
  let name := out_name ua (size (entries w)) prompt seed in
  entries w !! name = Some old →
  ∃ w',
    save_image ua o image prompt seed w = (w', Ok (lit "./results/" ++ name)) ∧
    entries w' !! name = Some image ∧
    size (entries w') = size (entries w) ∧
    (∀ n, n ≠ name → entries w' !! n = entries w !! n) ∧
    last (log w') = Some (EvSave name true).
Proof.
  intros Hsave name Hold.
  pose proof (save_image_ok ua o image prompt seed w Hsave) as Hrun.
  simpl in Hrun. fold name in Hrun.
  eexists. split; [exact Hrun|].
  set (w' := mkWorld _ _ _ _ _ _).
  assert (entries w' = <[name := image]> (entries w)) as -> by reflexivity.
  split_and!.
  - by rewrite lookup_insert_eq.
  - by erewrite map_size_insert_Some.
  - intros n Hn. by rewrite lookup_insert_ne.
  - unfold w'. simpl. rewrite last_app. simpl. rewrite Hold.
    by rewrite bool_decide_eq_true_2.
Qed.

Lemma save_replaces_taken_name_witness :
  let w := with_results (initial_world None) leftover_dir in
  let name := out_name ascii_only (size (entries w)) (lit "x") 5 in
  ∃ w',
    save_image ascii_only quiet (MkImage 2) (lit "x") 5 w
      = (w', Ok (lit "./results/" ++ name)) ∧
    entries w' !! name = Some (MkImage 2) ∧
    size (entries w') = size (entries w) ∧
    (∀ n, n ≠ name → entries w' !! n = entries w !! n) ∧
    last (log w') = Some (EvSave name true).
Proof.
  apply (save_replaces_taken_name ascii_only quiet (MkImage 2) (lit "x") 5
           (with_results (initial_world None) leftover_dir) (MkImage 1)).
  - reflexivity.
  - vm_compute. reflexivity.
Defined.

(** X19.  A nonzero reported seed replays the request: asking again with that
    seed, on the same state, does exactly what the first request did,
    whatever [torch.seed()] would draw this time. *)
Lemma reported_seed_replays ua i o drawn seed c w :
  draw_seed o seed ≠ 0 →
  request ua i (with_torch_seed o drawn) (draw_seed o seed) c w
  = request ua i o seed c w.
Proof.
  intros Hnz. unfold request, generate_image.
  assert (draw_seed (with_torch_seed o drawn) (draw_seed o seed)
          = draw_seed o seed) as ->.
  { unfold draw_seed at 1. by destruct (Z.eqb_spec (draw_seed o seed) 0). }
  reflexivity.
Qed.

Lemma reported_seed_replays_witness :
  request ascii_only portrait (with_torch_seed out_of_memory 5)
    (draw_seed out_of_memory 0) plain (initial_world None)
  = request ascii_only portrait out_of_memory 0 plain (initial_world None).
Proof.
  apply (reported_seed_replays ascii_only portrait out_of_memory 5 0 plain
           (initial_world None)).
  vm_compute. discriminate.
Defined.
